(** * Response renderers of [github.com/unrolled/render] ([engine.go])

    A shallow embedding of the six built-in renderers ([Data], [HTML],
    [JSON], [JSONP], [Text], [XML]) and of [Head.Write], followed by the
    properties of the rendering layer.

    Go's [io.Writer] / [http.ResponseWriter] argument is a recording
    sink; the package-level [bufPool] and the sink form the world a
    render call runs in.  A render call either returns (an [error] or
    [nil]) or panics. *)

From Stdlib Require Import ZArith Lia Bool.
From Stdlib Require Import Strings.String Strings.Byte.
From stdpp Require Import base option list strings gmap.

Local Open Scope Z_scope.
Local Open Scope string_scope.
Local Open Scope list_scope.
Local Set Warnings "-register-all".

(** ** Bytes and strings *)

(** A Go [[]byte]. *)
Definition bytes : Type := list byte.

(** The conversion [[]byte(s)]. *)
Definition B (s : string) : bytes := list_byte_of_string s.

(** The byte ['\n']. *)
Definition newline : byte := x0a.

Definition byte_eqb (a b : byte) : bool := Byte.eqb a b.

(** ** Errors, dynamic values *)

(** A Go [error] value (non-nil); [option error] is a possibly-nil error. *)
Inductive error : Type :=
| Err (msg : string).

(** The dynamic values ([interface{}]) handed to [Render]. *)
Inductive any : Type :=
| AnyNil
| AnyBool (b : bool)
| AnyInt (n : Z)
| AnyString (s : string)
| AnyBytes (b : bytes)
| AnySlice (xs : list any)
| AnyMap (kvs : list (string * any))
| AnyChan.

(** The comma-ok type assertions [v.([]byte)] and [v.(string)]. *)
Definition as_bytes (v : any) : option bytes :=
  match v with AnyBytes b => Some b | _ => None end.

Definition as_string (v : any) : option string :=
  match v with AnyString s => Some s | _ => None end.

(** ** The sink *)

(** What a render call did to its sink, in order. *)
Inductive call : Type :=
| HeaderSet (key value : string)
| WriteHeader (status : Z)
| Write (p : bytes).

(** An [io.Writer].  [is_ResponseWriter] tells whether the dynamic type
    also implements [http.ResponseWriter].  [header] is the
    [http.Header] map, [calls] the log of the calls received (oldest
    first), [body] the bytes accepted so far.  [faults] scripts the
    answers of the coming [Write] calls: [Some e] rejects the write with
    [e] and takes no byte, [None] (or an exhausted script) accepts it. *)
Record Sink : Type := mkSink {
  is_ResponseWriter : bool;
  header : gmap string (list string);
  calls : list call;
  body : bytes;
  faults : list (option error)
}.

(** Modelled from the spec: the buffer pool [bufPool], a package-level
    variable declared outside [engine.go].  The pool keeps [idle]
    buffers ready for reuse and has [lent] buffers out with callers. *)
Record BufferPool : Type := mkPool {
  idle : nat;
  lent : nat
}.

Record World : Type := mkWorld {
  sink : Sink;
  bufPool : BufferPool
}.

Definition with_sink (f : Sink -> Sink) (σ : World) : World :=
  mkWorld (f (sink σ)) (bufPool σ).

Definition with_pool (f : BufferPool -> BufferPool) (σ : World) : World :=
  mkWorld (sink σ) (f (bufPool σ)).

(** ** Go computations *)

Inductive outcome (A : Type) : Type :=
| Done (a : A)
| Panicked (msg : string).
Arguments Done {A} a.
Arguments Panicked {A} msg.

Definition Go (A : Type) : Type := World -> outcome A * World.

Definition ret {A} (a : A) : Go A := fun σ => (Done a, σ).

(** Sequencing: a panic cuts the rest of the computation short and the
    world stays as the panic found it. *)
Definition bind {A B} (m : Go A) (f : A -> Go B) : Go B := fun σ =>
  match m σ with
  | (Done a, σ') => f a σ'
  | (Panicked msg, σ') => (Panicked msg, σ')
  end.

Declare Scope go_scope.
Delimit Scope go_scope with go.
Bind Scope go_scope with Go.

Notation "x <- m ;; k" := (bind m (fun x => k))
  (at level 100, m at next level, k at level 200,
   right associativity) : go_scope.
Notation "m ;;; k" := (bind m (fun _ => k))
  (at level 100, k at level 200, right associativity) : go_scope.

Local Open Scope go_scope.

Definition panic {A} (msg : string) : Go A := fun σ => (Panicked msg, σ).

Definition get_world : Go World := fun σ => (Done σ, σ).

Definition modify (f : World -> World) : Go unit := fun σ => (Done tt, f σ).

(** ** [http.Header], [http.ResponseWriter], [io.Writer] *)

(** Modelled from the spec: the header key constant [ContentType],
    declared outside [engine.go]. *)
Definition ContentType : string := "Content-Type".

(** [Header.Get]: the first value stored under the key, or [""]. *)
Definition Header_Get (h : gmap string (list string)) (key : string) : string :=
  match h !! key with
  | Some (v :: _) => v
  | _ => ""
  end.

(** [Header.Set]: the key now holds exactly the one value. *)
Definition Header_Set (key value : string)
    (h : gmap string (list string)) : gmap string (list string) :=
  <[key := [value]]> h.

(** [w.(http.ResponseWriter)], comma-ok form. *)
Definition assert_ResponseWriter : Go bool :=
  σ <- get_world;; ret (is_ResponseWriter (sink σ)).

(** [hw.Header().Get(key)] *)
Definition hw_Header_Get (key : string) : Go string :=
  σ <- get_world;; ret (Header_Get (header (sink σ)) key).

(** [hw.Header().Set(key, value)] *)
Definition hw_Header_Set (key value : string) : Go unit :=
  modify (with_sink (fun s =>
    mkSink (is_ResponseWriter s) (Header_Set key value (header s))
           (calls s ++ [HeaderSet key value]) (body s) (faults s))).

(** [hw.WriteHeader(status)] *)
Definition hw_WriteHeader (status : Z) : Go unit :=
  modify (with_sink (fun s =>
    mkSink (is_ResponseWriter s) (header s)
           (calls s ++ [WriteHeader status]) (body s) (faults s))).

(** What one [Write] call does to the sink, and the error it answers. *)
Definition sink_write (p : bytes) (s : Sink) : option error * Sink :=
  match faults s with
  | Some e :: rest =>
      (Some e, mkSink (is_ResponseWriter s) (header s)
                      (calls s ++ [Write p]) (body s) rest)
  | None :: rest =>
      (None, mkSink (is_ResponseWriter s) (header s)
                    (calls s ++ [Write p]) (body s ++ p) rest)
  | [] =>
      (None, mkSink (is_ResponseWriter s) (header s)
                    (calls s ++ [Write p]) (body s ++ p) [])
  end.

(** [w.Write(p)]; the answer is the call's [error] result. *)
Definition w_Write (p : bytes) : Go (option error) := fun σ =>
  let '(e, s') := sink_write p (sink σ) in
  (Done e, mkWorld s' (bufPool σ)).

(** ** The buffer pool *)

(** Modelled from the spec: [bufPool.Get] hands out an empty buffer,
    taken from the idle ones when there is one. *)
Definition bufPool_Get : Go bytes := fun σ =>
  (Done [], with_pool (fun p => mkPool (Nat.pred (idle p)) (S (lent p))) σ).

(** Modelled from the spec: [bufPool.Put] takes the buffer back. *)
Definition bufPool_Put (out : bytes) : Go unit :=
  modify (with_pool (fun p => mkPool (S (idle p)) (Nat.pred (lent p)))).

(** ** [bytes.HasPrefix], [bytes.Contains], [bytes.Replace] *)

Fixpoint has_prefix (p s : bytes) : bool :=
  match p, s with
  | [], _ => true
  | _ :: _, [] => false
  | a :: p', b :: s' => byte_eqb a b && has_prefix p' s'
  end.

Fixpoint contains (p s : bytes) : bool :=
  has_prefix p s ||
  match s with
  | [] => false
  | _ :: t => contains p t
  end.

(** [bytes.Replace(s, old, new, -1)] for a non-empty [old] (the only use
    in [engine.go]): scanning from the left, every occurrence of [old]
    that does not overlap an earlier one is replaced by [new].  [fuel]
    bounds the number of scanning steps; [length s] steps are enough. *)
Fixpoint replace_from (fuel : nat) (old new s : bytes) : bytes :=
  match fuel with
  | O => s
  | S fuel' =>
      match s with
      | [] => []
      | c :: t =>
          if has_prefix old s
          then new ++ replace_from fuel' old new (drop (length old) s)
          else c :: replace_from fuel' old new t
      end
  end.

Definition bytes_Replace (s old new : bytes) : bytes :=
  replace_from (length s) old new s.

(** [x] occurs in [s]. *)
Definition mem (x : byte) (s : bytes) : bool := existsb (byte_eqb x) s.

(** No byte of [p] occurs in [s]. *)
Definition disjoint (p s : bytes) : bool :=
  forallb (fun x => negb (mem x s)) p.

(** [p] and [q] agree as far as both reach, so that both can be a
    prefix of one sequence. *)
Fixpoint compatible (p q : bytes) : bool :=
  match p, q with
  | a :: p', c :: q' => byte_eqb a c && compatible p' q'
  | _, _ => true
  end.

(** ** The renderer configurations *)

Record Head : Type := mkHead {
  Head_ContentType : string;
  Head_Status : Z
}.

Record Data : Type := mkData {
  Data_Head : Head
}.

Record JSON : Type := mkJSON {
  JSON_Head : Head;
  JSON_Indent : bool;
  JSON_UnEscapeHTML : bool;
  JSON_Prefix : bytes;
  JSON_StreamingJSON : bool
}.

Record JSONP : Type := mkJSONP {
  JSONP_Head : Head;
  JSONP_Indent : bool;
  JSONP_Callback : string
}.

Record Text : Type := mkText {
  Text_Head : Head
}.

Record XML : Type := mkXML {
  XML_Head : Head;
  XML_Indent : bool;
  XML_Prefix : bytes
}.

(** ** [Head.Write], [Data.Render], [Text.Render] *)

(** [Head.Write] *)
Definition Head_Write (h : Head) : Go unit :=
  hw_Header_Set ContentType (Head_ContentType h);;;
  hw_WriteHeader (Head_Status h).

(** The single-value type assertions [v.([]byte)] and [v.(string)]: they
    panic on a value of another dynamic type. *)
Definition assert_bytes (v : any) : Go bytes :=
  match as_bytes v with
  | Some b => ret b
  | None => panic "interface conversion: interface {} is not []uint8"
  end.

Definition assert_string (v : any) : Go string :=
  match as_string v with
  | Some s => ret s
  | None => panic "interface conversion: interface {} is not string"
  end.

(** [Data.Render] *)
Definition Data_Render (d : Data) (v : any) : Go (option error) :=
  ok <- assert_ResponseWriter;;
  (if ok then
     c <- hw_Header_Get ContentType;;
     let h := if decide (c = "")
              then Data_Head d
              else mkHead c (Head_Status (Data_Head d)) in
     Head_Write h
   else ret tt);;;
  p <- assert_bytes v;;
  w_Write p;;;
  ret None.

(** [Text.Render] *)
Definition Text_Render (t : Text) (v : any) : Go (option error) :=
  ok <- assert_ResponseWriter;;
  (if ok then
     c <- hw_Header_Get ContentType;;
     let h := if decide (c = "")
              then Text_Head t
              else mkHead c (Head_Status (Text_Head t)) in
     Head_Write h
   else ret tt);;;
  s <- assert_string v;;
  w_Write (B s);;;
  ret None.

(** ** The renderers that encode *)

Section Renderers.

(** The standard library's encoders and the compiled template set are
    collaborators of the package; the renderers are read against any
    behaviour of theirs.  Each answers Go's pair of the bytes and the
    error. *)
Variable json_Marshal : any -> bytes * option error.
Variable json_MarshalIndent : any -> string -> string -> bytes * option error.
Variable xml_Marshal : any -> bytes * option error.
Variable xml_MarshalIndent : any -> string -> string -> bytes * option error.

(** [*template.Template] and its [ExecuteTemplate(out, name, data)]:
    the bytes the execution appends to [out] (possibly some even when
    it fails) and its error. *)
Variable Template : Type.
Variable ExecuteTemplate : Template -> string -> any -> bytes * option error.

Record HTML : Type := mkHTML {
  HTML_Head : Head;
  HTML_Name : string;
  HTML_Templates : Template
}.

(** [Buffer.WriteTo(w)] of [bytes]: one [Write] of the whole content, and
    none at all for an empty buffer. *)
Definition Buffer_WriteTo (out : bytes) : Go (option error) :=
  match out with
  | [] => ret None
  | _ :: _ => w_Write out
  end.

(** [HTML.Render] *)
Definition HTML_Render (h : HTML) (binding : any) : Go (option error) :=
  out <- bufPool_Get;;
  let '(emitted, err) :=
    ExecuteTemplate (HTML_Templates h) (HTML_Name h) binding in
  let out := out ++ emitted in
  match err with
  | Some e => ret (Some e)
  | None =>
      ok <- assert_ResponseWriter;;
      (if ok then Head_Write (HTML_Head h) else ret tt);;;
      Buffer_WriteTo out;;;
      bufPool_Put out;;;
      ret None
  end.

(** [json.NewEncoder(w).Encode(v)]: the encoder marshals into a buffer
    of its own, appends ['\n'] and hands the buffer to [w] in one
    [Write], whose error it returns; when marshalling fails nothing is
    written. *)
Definition json_Encoder_Encode (v : any) : Go (option error) :=
  let '(b, err) := json_Marshal v in
  match err with
  | Some e => ret (Some e)
  | None => w_Write (b ++ [newline])
  end.

(** [JSON.renderStreamingJSON] *)
Definition JSON_renderStreamingJSON (j : JSON) (v : any) : Go (option error) :=
  ok <- assert_ResponseWriter;;
  (if ok then Head_Write (JSON_Head j) else ret tt);;;
  (if (0 <? length (JSON_Prefix j))%nat
   then w_Write (JSON_Prefix j);;; ret tt
   else ret tt);;;
  json_Encoder_Encode v.

(** The three [bytes.Replace] calls of [JSON.Render]. *)
Definition unescapeHTML (result : bytes) : bytes :=
  let result := bytes_Replace result (B "\u003c") (B "<") in
  let result := bytes_Replace result (B "\u003e") (B ">") in
  let result := bytes_Replace result (B "\u0026") (B "&") in
  result.

(** [JSON.Render] *)
Definition JSON_Render (j : JSON) (v : any) : Go (option error) :=
  if JSON_StreamingJSON j then JSON_renderStreamingJSON j v else
  let '(result, err) :=
    if JSON_Indent j
    then let '(result, err) := json_MarshalIndent v "" "  " in
         (result ++ [newline], err)
    else json_Marshal v in
  match err with
  | Some e => ret (Some e)
  | None =>
      let result :=
        if JSON_UnEscapeHTML j then unescapeHTML result else result in
      ok <- assert_ResponseWriter;;
      (if ok then Head_Write (JSON_Head j) else ret tt);;;
      (if (0 <? length (JSON_Prefix j))%nat
       then w_Write (JSON_Prefix j);;; ret tt
       else ret tt);;;
      w_Write result;;;
      ret None
  end.

(** [JSONP.Render] *)
Definition JSONP_Render (j : JSONP) (v : any) : Go (option error) :=
  let '(result, err) :=
    if JSONP_Indent j
    then json_MarshalIndent v "" "  "
    else json_Marshal v in
  match err with
  | Some e => ret (Some e)
  | None =>
      ok <- assert_ResponseWriter;;
      (if ok then Head_Write (JSONP_Head j) else ret tt);;;
      w_Write (B (JSONP_Callback j ++ "(")%string);;;
      w_Write result;;;
      w_Write (B ");");;;
      (if JSONP_Indent j
       then w_Write [newline];;; ret tt
       else ret tt);;;
      ret None
  end.

(** [XML.Render] *)
Definition XML_Render (x : XML) (v : any) : Go (option error) :=
  let '(result, err) :=
    if XML_Indent x
    then let '(result, err) := xml_MarshalIndent v "" "  " in
         (result ++ [newline], err)
    else xml_Marshal v in
  match err with
  | Some e => ret (Some e)
  | None =>
      ok <- assert_ResponseWriter;;
      (if ok then Head_Write (XML_Head x) else ret tt);;;
      (if (0 <? length (XML_Prefix x))%nat
       then w_Write (XML_Prefix x);;; ret tt
       else ret tt);;;
      w_Write result;;;
      ret None
  end.

(** The [Engine] interface and its six implementations. *)
Inductive Engine : Type :=
| EData (d : Data)
| EHTML (h : HTML)
| EJSON (j : JSON)
| EJSONP (j : JSONP)
| EText (t : Text)
| EXML (x : XML).

(** [Engine.Render], by dynamic dispatch. *)
Definition Render (e : Engine) (v : any) : Go (option error) :=
  match e with
  | EData d => Data_Render d v
  | EHTML h => HTML_Render h v
  | EJSON j => JSON_Render j v
  | EJSONP j => JSONP_Render j v
  | EText t => Text_Render t v
  | EXML x => XML_Render x v
  end.

(** The embedded [Head] of a renderer. *)
Definition Engine_Head (e : Engine) : Head :=
  match e with
  | EData d => Data_Head d
  | EHTML h => HTML_Head h
  | EJSON j => JSON_Head j
  | EJSONP j => JSONP_Head j
  | EText t => Text_Head t
  | EXML x => XML_Head x
  end.

(** The renderer is [JSON] with [StreamingJSON] set. *)
Definition is_streaming (e : Engine) : bool :=
  match e with
  | EJSON j => JSON_StreamingJSON j
  | _ => false
  end.

(** The serializer call a buffered [JSON], a [JSONP] or an [XML]
    renderer makes, as selected by its [Indent] field. *)
Definition JSON_marshal (indent : bool) (v : any) : bytes * option error :=
  if indent then json_MarshalIndent v "" "  " else json_Marshal v.

Definition XML_marshal (indent : bool) (v : any) : bytes * option error :=
  if indent then xml_MarshalIndent v "" "  " else xml_Marshal v.

(** The error, if any, of the serialization or template execution a
    buffering renderer performs ahead of its first write. *)
Definition buffered_error (e : Engine) (v : any) : option error :=
  match e with
  | EData _ | EText _ => None
  | EHTML h => snd (ExecuteTemplate (HTML_Templates h) (HTML_Name h) v)
  | EJSON j =>
      if JSON_StreamingJSON j then None
      else snd (JSON_marshal (JSON_Indent j) v)
  | EJSONP j => snd (JSON_marshal (JSONP_Indent j) v)
  | EXML x => snd (XML_marshal (XML_Indent x) v)
  end.

End Renderers.

Arguments HTML_Head {Template} h.
Arguments HTML_Name {Template} h.
Arguments HTML_Templates {Template} h.
Arguments mkHTML {Template}.
Arguments Engine Template : clear implicits.
Arguments EData {Template} d.
Arguments EHTML {Template} h.
Arguments EJSON {Template} j.
Arguments EJSONP {Template} j.
Arguments EText {Template} t.
Arguments EXML {Template} x.
Arguments Engine_Head {Template} e.
Arguments is_streaming {Template} e.

(** The renderer reads the sink's content type before writing its own
    ([Data] and [Text]). *)
Definition reads_content_type {Template} (e : Engine Template) : bool :=
  match e with
  | EData _ | EText _ => true
  | _ => false
  end.

Definition is_Write (c : call) : bool :=
  match c with Write _ => true | _ => false end.

Definition is_WriteHeader (c : call) : bool :=
  match c with WriteHeader _ => true | _ => false end.

(** How many times the status code was written. *)
Definition header_writes (cs : list call) : nat :=
  length (List.filter is_WriteHeader cs).



(** The escape sequences [JSON.Render] undoes, each with its literal. *)
Definition html_escapes : list (bytes * byte) :=
  [(B "\u003c", x3c); (B "\u003e", x3e); (B "\u0026", x26)].

(** ** Notions used in the statements *)

(** The world with another script of write answers. *)
Definition set_faults (fs : list (option error)) (σ : World) : World :=
  with_sink (fun s =>
    mkSink (is_ResponseWriter s) (header s) (calls s) (body s) fs) σ.

(** The answer scripted for the [k]-th coming [Write] (from 0). *)
Definition answer (fs : list (option error)) (k : nat) : option error :=
  match fs !! k with
  | Some (Some e) => Some e
  | _ => None
  end.

(** Two worlds that differ at most in what the sink accepted, was asked
    and will answer, and in the pool. *)
Definition similar (σ1 σ2 : World) : Prop :=
  is_ResponseWriter (sink σ1) = is_ResponseWriter (sink σ2) /\
  header (sink σ1) = header (sink σ2).

(** [m] returns the same from similar worlds, and leaves them similar. *)
Definition blind {A} (m : Go A) : Prop :=
  forall σ1 σ2, similar σ1 σ2 ->
    fst (m σ1) = fst (m σ2) /\ similar (snd (m σ1)) (snd (m σ2)).

(** The calls of [Head.Write] on a sink, none on a sink that is no
    [http.ResponseWriter]. *)
Definition header_calls (rw : bool) (content_type : string) (status : Z)
    : list call :=
  if rw then [HeaderSet ContentType content_type; WriteHeader status] else [].

(** The guarded write of a prefix: [if len(p) > 0 { w.Write(p) }]. *)
Definition prefix_write (p : bytes) : list call :=
  if (0 <? length p)%nat then [Write p] else [].

(** What the body gains from a [Write] of [p] answered by the head of the
    script. *)
Definition accepted (fs : list (option error)) (p : bytes) : bytes :=
  match answer fs 0 with
  | Some _ => []
  | None => p
  end.

Definition is_HTML {Template} (e : Engine Template) : bool :=
  match e with
  | EHTML _ => true
  | _ => false
  end.

(** The content type a renderer hands to [Head.Write] on a sink: [Data]
    and [Text] keep a non-empty one the sink holds, the others always
    take their own. *)
Definition written_content_type {Template} (e : Engine Template) (s : Sink)
    : string :=
  if reads_content_type e
  then let c := Header_Get (header s) ContentType in
       if decide (c = "") then Head_ContentType (Engine_Head e) else c
  else Head_ContentType (Engine_Head e).

(** A sink that went on from [s]: the same kind of writer, with calls
    and body bytes added at the end and answers taken from the front of
    the script. *)
Definition grows (s s' : Sink) : Prop :=
  is_ResponseWriter s' = is_ResponseWriter s /\
  (exists cs, calls s' = calls s ++ cs) /\
  (exists out, body s' = body s ++ out) /\
  (exists n, faults s' = drop n (faults s)).

(** [m] only ever adds to the sink. *)
Definition append_only {A} (m : Go A) : Prop :=
  forall σ, grows (sink σ) (sink (snd (m σ))).

(** ** Sample collaborators

    The answers of [encoding/json], [encoding/xml] and [html/template]
    on the few values the examples use, to run the renderers on concrete
    inputs.  The tables stop there: any other value is answered with an
    error, as the encoders answer a channel. *)
Module Sample.

Definition dquote : byte := x22.

(** The map [{"a": 1}]. *)
Definition v_obj : any := AnyMap [("a", AnyInt 1)].

(** The string [<b>&]. *)
Definition v_markup : any := AnyString "<b>&".

(** [{"a":1}] *)
Definition obj_compact : bytes :=
  B "{" ++ [dquote] ++ B "a" ++ [dquote] ++ B ":1}".

(** [{"a":1}] over three lines, indented by two spaces. *)
Definition obj_indented : bytes :=
  B "{" ++ [newline] ++ B "  " ++ [dquote] ++ B "a" ++ [dquote]
    ++ B ": 1" ++ [newline] ++ B "}".

(** The quoted string with its three characters escaped. *)
Definition markup_escaped : bytes :=
  [dquote] ++ B "\u003cb\u003e\u0026" ++ [dquote].

Definition unsupported : bytes * option error :=
  ([], Some (Err "unsupported type")).

Definition json_Marshal (v : any) : bytes * option error :=
  match v with
  | AnyMap [("a", AnyInt 1)] => (obj_compact, None)
  | AnyString "<b>&" => (markup_escaped, None)
  | AnyNil => (B "null", None)
  | _ => unsupported
  end.

Definition json_MarshalIndent (v : any) (prefix indent : string)
    : bytes * option error :=
  match v with
  | AnyMap [("a", AnyInt 1)] => (obj_indented, None)
  | AnyString "<b>&" => (markup_escaped, None)
  | AnyNil => (B "null", None)
  | _ => unsupported
  end.

Definition xml_Marshal (v : any) : bytes * option error :=
  match v with
  | AnyString "hi" => (B "<string>hi</string>", None)
  | AnyNil => ([], None)
  | _ => unsupported
  end.

Definition xml_MarshalIndent (v : any) (prefix indent : string)
    : bytes * option error :=
  xml_Marshal v.

(** One template, [hello], with the text [Hello {{.Name}}!]: it
    expands on the sample binding and stops after [Hello ] on a binding
    without that field. *)
Definition Template : Type := unit.

Definition ExecuteTemplate (t : Template) (name : string) (data : any)
    : bytes * option error :=
  if decide (name = "hello") then
    match data with
    | AnyMap [("Name", AnyString "Ann")] => (B "Hello Ann!", None)
    | _ => (B "Hello ", Some (Err "can't evaluate field Name"))
    end
  else ([], Some (Err "template is undefined")).

Definition Render : Engine Template -> any -> Go (option error) :=
  Render json_Marshal json_MarshalIndent xml_Marshal xml_MarshalIndent
         Template ExecuteTemplate.

Definition head_json : Head := mkHead "application/json" 200.
Definition head_html : Head := mkHead "text/html" 200.

Definition plain_sink : Sink := mkSink false ∅ [] [] [].
Definition response_sink : Sink := mkSink true ∅ [] [] [].

(** A response whose handler already chose a content type. *)
Definition custom_sink : Sink :=
  mkSink true {[ ContentType := ["text/custom"] ]} [] [] [].

(** A response whose connection is gone: the first write is rejected. *)
Definition broken_sink : Sink :=
  mkSink true ∅ [] [] [Some (Err "connection reset by peer")].

Definition pool : BufferPool := mkPool 2 0.

(** Renderer configurations and the world of the examples. *)
Definition json_plain : JSON := mkJSON head_json false false [] false.
Definition json_unescape : JSON := mkJSON head_json false true [] false.
Definition json_stream : JSON := mkJSON head_json false false [] true.
Definition jsonp_cb : JSONP := mkJSONP head_json false "cb".
Definition xml_plain : XML := mkXML (mkHead "text/xml" 200) false [].
Definition html_hello : HTML Template := mkHTML head_html "hello" tt.
Definition σ0 : World := mkWorld response_sink pool.

End Sample.


(** * Properties *)

(** ** Bytes *)

Lemma byte_eqb_eq a b : byte_eqb a b = true <-> a = b.
Proof.
  split; [apply Byte.byte_dec_bl | apply Byte.byte_dec_lb].
Qed.

Lemma byte_eqb_refl a : byte_eqb a a = true.
Proof. by apply byte_eqb_eq. Qed.

Lemma byte_eqb_neq a b : byte_eqb a b = false <-> a <> b.
Proof.
  split.
  - intros H ->. by rewrite byte_eqb_refl in H.
  - intros H. destruct (byte_eqb a b) eqn:E; [|done].
    by apply byte_eqb_eq in E.
Qed.

(** ** The renderers at work *)

Example Data_Render_ex :
  Data_Render (mkData (mkHead "application/octet-stream" 200))
              (AnyBytes (B "hi")) (mkWorld Sample.response_sink Sample.pool)
  = (Done None,
     mkWorld (mkSink true {[ ContentType := ["application/octet-stream"] ]}
                [HeaderSet ContentType "application/octet-stream";
                 WriteHeader 200; Write (B "hi")] (B "hi") [])
             Sample.pool).
Proof. vm_compute. reflexivity. Qed.

Example JSONP_Render_ex :
  body (sink (snd (Sample.Render
    (EJSONP (mkJSONP Sample.head_json false "cb")) Sample.v_obj
    (mkWorld Sample.response_sink Sample.pool))))
  = B "cb(" ++ Sample.obj_compact ++ B ");".
Proof. vm_compute. reflexivity. Qed.

Example JSON_unescape_ex :
  body (sink (snd (Sample.Render
    (EJSON (mkJSON Sample.head_json false true [] false)) Sample.v_markup
    (mkWorld Sample.response_sink Sample.pool))))
  = [Sample.dquote] ++ B "<b>&" ++ [Sample.dquote].
Proof. vm_compute. reflexivity. Qed.

(** ** Byte sequences: prefixes, occurrences, replacement *)

Section BytesFacts.

Implicit Types (p q s t old new : bytes) (a c x : byte).

Lemma has_prefix_app p t : has_prefix p (p ++ t) = true.
Proof.
  induction p as [|a p IH]; [done|]. cbn. by rewrite byte_eqb_refl.
Qed.

Lemma has_prefix_inv p s :
  has_prefix p s = true -> s = p ++ drop (length p) s.
Proof.
  revert s. induction p as [|a p IH]; intros [|c s]; cbn; try done.
  intros [Hac Hp]%andb_prop. apply byte_eqb_eq in Hac as ->.
  f_equal. by apply IH.
Qed.

Lemma has_prefix_app_r p s t :
  has_prefix p s = true -> has_prefix p (s ++ t) = true.
Proof.
  intros H. rewrite (has_prefix_inv _ _ H), <- app_assoc.
  apply has_prefix_app.
Qed.

Lemma has_prefix_compatible p q s :
  has_prefix p s = true -> has_prefix q s = true -> compatible p q = true.
Proof.
  revert q s. induction p as [|a p IH]; intros [|c q] [|b s]; cbn; try done.
  intros [Ha Hp]%andb_prop [Hc Hq]%andb_prop.
  apply byte_eqb_eq in Ha as ->. apply byte_eqb_eq in Hc as ->.
  rewrite byte_eqb_refl. cbn. by eapply IH.
Qed.

Lemma mem_false_cons x c s :
  mem x (c :: s) = false <-> x <> c /\ mem x s = false.
Proof.
  unfold mem. cbn. rewrite orb_false_iff, byte_eqb_neq. tauto.
Qed.



Lemma contains_nil p : p <> [] -> contains p [] = false.
Proof. by destruct p. Qed.

Lemma contains_cons p c s :
  contains p (c :: s) = has_prefix p (c :: s) || contains p s.
Proof. done. Qed.

Lemma contains_app_r p s t :
  contains p t = true -> contains p (s ++ t) = true.
Proof.
  intros H. induction s as [|c s IH]; [done|].
  change ((c :: s) ++ t) with (c :: (s ++ t)).
  rewrite contains_cons, IH. apply orb_true_r.
Qed.

Lemma contains_app_l p s t :
  contains p s = true -> contains p (s ++ t) = true.
Proof.
  induction s as [|c s IH].
  - destruct p; [by destruct t|done].
  - change ((c :: s) ++ t) with (c :: (s ++ t)).
    rewrite !contains_cons. intros [H|H]%orb_prop.
    + change (c :: (s ++ t)) with ((c :: s) ++ t).
      by rewrite has_prefix_app_r.
    + rewrite IH by done. apply orb_true_r.
Qed.

Lemma contains_drop p n s :
  contains p (drop n s) = true -> contains p s = true.
Proof.
  intros H. rewrite <- (take_drop n s). by apply contains_app_r.
Qed.

(** An occurrence of [p] cannot start inside a block none of whose
    bytes is the first byte of [p]. *)
Lemma contains_skip a p s t :
  mem a s = false -> contains (a :: p) (s ++ t) = contains (a :: p) t.
Proof.
  induction s as [|c s IH]; [done|].
  intros [Hne Hs]%mem_false_cons.
  change ((c :: s) ++ t) with (c :: (s ++ t)).
  rewrite contains_cons, IH by done. cbn [has_prefix].
  assert (byte_eqb a c = false) as -> by by apply byte_eqb_neq.
  done.
Qed.

(** *** [bytes.Replace] *)

Lemma replace_from_nil fuel old new : replace_from fuel old new [] = [].
Proof. by destruct fuel. Qed.

(** Enough fuel gives the result: past [length s] more fuel changes
    nothing. *)
Lemma replace_from_fuel old new fuel1 fuel2 s :
  old <> [] ->
  (length s <= fuel1)%nat -> (length s <= fuel2)%nat ->
  replace_from fuel1 old new s = replace_from fuel2 old new s.
Proof.
  intros Hold. revert fuel2 s.
  induction fuel1 as [|fuel1 IH]; intros fuel2 s H1 H2.
  - destruct s; [|cbn in H1; lia]. by rewrite !replace_from_nil.
  - destruct s as [|c t]; [by rewrite !replace_from_nil|].
    destruct fuel2 as [|fuel2]; [cbn in H2; lia|].
    cbn [replace_from]. cbn [length] in H1, H2.
    destruct (has_prefix old (c :: t)).
    + f_equal. apply IH; rewrite length_drop; cbn [length];
        destruct old; cbn [length]; try done; lia.
    + f_equal. apply IH; lia.
Qed.


Lemma bytes_Replace_cons old new c t :
  old <> [] ->
  bytes_Replace (c :: t) old new =
    if has_prefix old (c :: t)
    then new ++ bytes_Replace (drop (length old) (c :: t)) old new
    else c :: bytes_Replace t old new.
Proof.
  intros Hold. unfold bytes_Replace. cbn [length replace_from].
  destruct (has_prefix old (c :: t)).
  - f_equal. apply replace_from_fuel; [done| |done].
    rewrite length_drop. destruct old; [done|]. cbn [length]. lia.
  - done.
Qed.

(** Induction along the scan of [bytes.Replace]. *)
Lemma bytes_Replace_ind old new (P : bytes -> bytes -> Prop) :
  old <> [] ->
  P [] [] ->
  (forall c t,
      has_prefix old (c :: t) = true ->
      P (drop (length old) (c :: t))
        (bytes_Replace (drop (length old) (c :: t)) old new) ->
      P (c :: t)
        (new ++ bytes_Replace (drop (length old) (c :: t)) old new)) ->
  (forall c t,
      has_prefix old (c :: t) = false ->
      P t (bytes_Replace t old new) ->
      P (c :: t) (c :: bytes_Replace t old new)) ->
  forall s, P s (bytes_Replace s old new).
Proof.
  intros Hold Hnil Hhit Hmiss s.
  remember (length s) as n eqn:Hn.
  assert (length s <= n)%nat as Hle by lia. clear Hn.
  revert s Hle. induction n as [|n IH]; intros s Hle.
  - destruct s; [done|cbn in Hle; lia].
  - destruct s as [|c t]; [done|]. cbn [length] in Hle.
    rewrite bytes_Replace_cons by done.
    destruct (has_prefix old (c :: t)) eqn:Hp.
    + apply Hhit; [done|]. apply IH. rewrite length_drop.
      destruct old; [done|]. cbn [length]. lia.
    + apply Hmiss; [done|]. apply IH. lia.
Qed.

End BytesFacts.

Section ReplaceFacts.

Implicit Types (p q s t : bytes) (a c x : byte).
Variables old new : bytes.
Hypothesis old_nonempty : old <> [].

(** Replacement touches only occurrences of [old]: a prefix made of
    bytes that never start [old] is copied as it is. *)
Lemma has_prefix_Replace_copied o os q :
  old = o :: os -> mem o q = false ->
  forall t, has_prefix q t = true ->
            has_prefix q (bytes_Replace t old new) = true.
Proof.
  intros Hold. induction q as [|x q IH]; [done|].
  intros [Hne Hq]%mem_false_cons [|c t]; [done|]. cbn [has_prefix].
  intros [Hx Hp]%andb_prop. apply byte_eqb_eq in Hx as <-.
  rewrite bytes_Replace_cons by done.
  assert (has_prefix old (x :: t) = false) as ->.
  { rewrite Hold. cbn.
    assert (byte_eqb o x = false) as -> by by apply byte_eqb_neq.
    done. }
  cbn [has_prefix]. rewrite byte_eqb_refl. cbn. by apply IH.
Qed.

(** An occurrence of [old] always leaves a [new]. *)
Lemma contains_Replace_new s :
  contains old s = true -> contains new (bytes_Replace s old new) = true.
Proof.
  apply (bytes_Replace_ind old new
    (fun s r => contains old s = true -> contains new r = true));
    [done| | |].
  - by rewrite contains_nil.
  - intros c t _ _ _. apply contains_app_l.
    destruct new as [|n ns]; [done|].
    rewrite contains_cons.
    pose proof (has_prefix_app (n :: ns) []) as H.
    rewrite app_nil_r in H. by rewrite H.
  - intros c t Hmiss IH. rewrite !contains_cons, Hmiss. cbn [orb].
    intros H. rewrite IH by done. apply orb_true_r.
Qed.

Section NewForeign.

(** The bytes of [q] are foreign to the non-empty [new]. *)
Hypothesis new_nonempty : new <> [].

(** What the output starts with, when it is made of bytes foreign
    to [new], was copied from the input. *)
Lemma has_prefix_Replace_inv q :
  disjoint q new = true ->
  forall t, has_prefix q (bytes_Replace t old new) = true ->
            has_prefix q t = true.
Proof.
  induction q as [|x q IH]; [done|]. cbn [disjoint forallb].
  intros [Hx Hq]%andb_prop [|c t]; [done|].
  rewrite bytes_Replace_cons by done.
  destruct (has_prefix old (c :: t)) eqn:Hhit.
  - destruct new as [|n ns]; [done|]. cbn [app has_prefix].
    intros [Hxn _]%andb_prop. apply byte_eqb_eq in Hxn as ->.
    apply negb_true_iff in Hx. unfold mem in Hx. cbn in Hx.
    by rewrite byte_eqb_refl in Hx.
  - cbn [has_prefix]. intros [-> Hp]%andb_prop. cbn. by apply IH.
Qed.

(** Replacement creates no occurrence of a [p] foreign to [new]. *)
Lemma contains_Replace_absent p s :
  p <> [] -> disjoint p new = true ->
  contains p s = false -> contains p (bytes_Replace s old new) = false.
Proof.
  intros Hp Hd. destruct p as [|a p]; [done|].
  pose proof Hd as Hd'. cbn [disjoint forallb] in Hd'.
  apply andb_prop in Hd' as [Ha Hdp]. apply negb_true_iff in Ha.
  apply (bytes_Replace_ind old new
    (fun s r => contains (a :: p) s = false ->
                contains (a :: p) r = false)); [done|done| |].
  - intros c t _ IH Hs. rewrite contains_skip by done. apply IH.
    destruct (contains (a :: p) (drop (length old) (c :: t))) eqn:E;
      [|done].
    apply contains_drop in E. congruence.
  - intros c t _ IH. rewrite !contains_cons.
    intros [Hpre Ht]%orb_false_iff. rewrite IH by done.
    rewrite orb_false_r. cbn [has_prefix] in Hpre |- *.
    destruct (byte_eqb a c); [|done]. cbn in Hpre |- *.
    destruct (has_prefix p (bytes_Replace t old new)) eqn:E; [|done].
    apply has_prefix_Replace_inv in E; [congruence|done].
Qed.

(** After the replacement no occurrence of [old] is left, provided
    [old] and [new] share no byte. *)
Lemma contains_Replace_old o os s :
  old = o :: os -> disjoint old new = true ->
  contains old (bytes_Replace s old new) = false.
Proof.
  intros Hold Hd.
  assert (mem o new = false /\ disjoint os new = true) as [Ho Hdo].
  { rewrite Hold in Hd. cbn [disjoint forallb] in Hd.
    apply andb_prop in Hd as [Ho Hdo]. by apply negb_true_iff in Ho. }
  apply (bytes_Replace_ind old new (fun _ r => contains old r = false));
    [done| | |].
  - by rewrite contains_nil.
  - intros c t _ IH.
    pose proof (contains_skip o os new
      (bytes_Replace (drop (length old) (c :: t)) old new) Ho) as E.
    rewrite <- Hold in E. by rewrite E.
  - intros c t Hmiss IH. rewrite contains_cons, IH, orb_false_r.
    remember (bytes_Replace t old new) as r eqn:Hr.
    destruct (has_prefix old (c :: r)) eqn:E; [|done].
    rewrite Hold in E, Hmiss. cbn [has_prefix] in E, Hmiss.
    apply andb_prop in E as [Hoc E]. rewrite Hoc in Hmiss.
    subst r. apply has_prefix_Replace_inv in E; [|done].
    cbn in Hmiss. congruence.
Qed.

End NewForeign.

(** An occurrence of [a :: p] survives the replacement when it cannot
    overlap an occurrence of [old]: the two cannot start at the same
    place, [a] is not inside [old] and the first byte of [old] is not
    inside [p]. *)
Lemma contains_Replace_kept o os a p s :
  old = o :: os ->
  compatible old (a :: p) = false ->
  mem a os = false -> mem o p = false ->
  contains (a :: p) s = true ->
  contains (a :: p) (bytes_Replace s old new) = true.
Proof.
  intros Hold Hcomp Ha Ho.
  apply (bytes_Replace_ind old new
    (fun s r => contains (a :: p) s = true ->
                contains (a :: p) r = true)); [done|done| |].
  - intros c t Hhit IH Hs. apply contains_app_r, IH.
    rewrite contains_cons in Hs. apply orb_prop in Hs as [Hs|Hs].
    { pose proof (has_prefix_compatible _ _ _ Hhit Hs). congruence. }
    apply has_prefix_inv in Hhit. rewrite Hold in Hhit at 1.
    injection Hhit as _ Ht. rewrite Ht in Hs.
    by rewrite contains_skip in Hs.
  - intros c t _ IH. rewrite !contains_cons.
    intros [Hpre|Ht]%orb_prop.
    + cbn [has_prefix] in Hpre |- *.
      apply andb_prop in Hpre as [-> Hpre]. cbn.
      by rewrite (has_prefix_Replace_copied o os).
    + rewrite IH by done. apply orb_true_r.
Qed.



End ReplaceFacts.

(** *** The three replacements of [JSON.Render] *)



(** No escape sequence is left after the three replacements. *)
Lemma unescapeHTML_clean js pat lit :
  In (pat, lit) html_escapes -> contains pat (unescapeHTML js) = false.
Proof.
  unfold unescapeHTML.
  pose proof (contains_Replace_old (B "\u003c") (B "<") ltac:(done)
                ltac:(done) _ _ js eq_refl eq_refl) as H1.
  set (r1 := bytes_Replace js (B "\u003c") (B "<")) in *.
  pose proof (contains_Replace_old (B "\u003e") (B ">") ltac:(done)
                ltac:(done) _ _ r1 eq_refl eq_refl) as H2.
  pose proof (contains_Replace_absent (B "\u003e") (B ">") ltac:(done)
                ltac:(done) (B "\u003c") r1 ltac:(done) eq_refl H1) as H1'.
  set (r2 := bytes_Replace r1 (B "\u003e") (B ">")) in *.
  pose proof (contains_Replace_old (B "\u0026") (B "&") ltac:(done)
                ltac:(done) _ _ r2 eq_refl eq_refl) as H3.
  pose proof (contains_Replace_absent (B "\u0026") (B "&") ltac:(done)
                ltac:(done) (B "\u003c") r2 ltac:(done) eq_refl H1') as H1''.
  pose proof (contains_Replace_absent (B "\u0026") (B "&") ltac:(done)
                ltac:(done) (B "\u003e") r2 ltac:(done) eq_refl H2) as H2'.
  intros [E|[E|[E|[]]]]; injection E as <- <-; assumption.
Qed.

(** Every escape sequence of the input shows as its literal. *)
Lemma unescapeHTML_literal js pat lit :
  In (pat, lit) html_escapes ->
  contains pat js = true -> contains [lit] (unescapeHTML js) = true.
Proof.
  unfold unescapeHTML.
  set (r1 := bytes_Replace js (B "\u003c") (B "<")).
  set (r2 := bytes_Replace r1 (B "\u003e") (B ">")).
  intros [E|[E|[E|[]]]]; injection E as <- <-; intros H.
  - apply (contains_Replace_kept (B "\u0026") (B "&") ltac:(done)
             _ _ x3c [] r2 eq_refl eq_refl eq_refl eq_refl).
    apply (contains_Replace_kept (B "\u003e") (B ">") ltac:(done)
             _ _ x3c [] r1 eq_refl eq_refl eq_refl eq_refl).
    by apply (contains_Replace_new (B "\u003c") (B "<")).
  - apply (contains_Replace_kept (B "\u0026") (B "&") ltac:(done)
             _ _ x3e [] r2 eq_refl eq_refl eq_refl eq_refl).
    apply (contains_Replace_new (B "\u003e") (B ">")); [done|].
    by apply (contains_Replace_kept (B "\u003c") (B "<") ltac:(done)
             x5c (B "u003c") x5c (B "u003e") js
             eq_refl eq_refl eq_refl eq_refl).
  - apply (contains_Replace_new (B "\u0026") (B "&")); [done|].
    apply (contains_Replace_kept (B "\u003e") (B ">") ltac:(done)
             x5c (B "u003e") x5c (B "u0026") r1
             eq_refl eq_refl eq_refl eq_refl).
    by apply (contains_Replace_kept (B "\u003c") (B "<") ltac:(done)
             x5c (B "u003c") x5c (B "u0026") js
             eq_refl eq_refl eq_refl eq_refl).
Qed.

(** *** Trailing newlines *)





Lemma B_app (s1 s2 : string) : B (s1 ++ s2)%string = B s1 ++ B s2.
Proof.
  unfold B. induction s1 as [|a s1 IH]; [done|].
  change (String a s1 +:+ s2) with (String a (s1 +:+ s2)).
  unfold list_byte_of_string in *. cbn [list_ascii_of_string map app].
  by rewrite IH.
Qed.

Arguments B : simpl never.
Arguments unescapeHTML : simpl never.
Arguments bytes_Replace : simpl never.

(** ** The renderers *)

(** Unfolds a render call down to the operations on the sink and the
    pool. *)
Ltac go_ops :=
  unfold Render, Data_Render, Text_Render, HTML_Render, JSON_Render,
    JSON_renderStreamingJSON, JSONP_Render, XML_Render,
    json_Encoder_Encode, JSON_marshal, XML_marshal, Buffer_WriteTo,
    Head_Write, assert_bytes, assert_string, assert_ResponseWriter,
    hw_Header_Get, hw_Header_Set, hw_WriteHeader, w_Write,
    bufPool_Get, bufPool_Put, bind, ret, panic, modify, get_world,
    with_sink, with_pool in *.

(** The same, down to the case split of [sink_write] on the script. *)
Ltac go_unfold := go_ops; unfold sink_write in *.

(** Unfolds a renderer to its sequence of operations. *)
Ltac render_unfold :=
  unfold Render, Data_Render, Text_Render, HTML_Render, JSON_Render,
    JSON_renderStreamingJSON, JSONP_Render, XML_Render,
    json_Encoder_Encode.

(** One [Write], without a case split on the script. *)
Lemma sink_write_eq p s :
  sink_write p s =
    (answer (faults s) 0,
     mkSink (is_ResponseWriter s) (header s) (calls s ++ [Write p])
            (match answer (faults s) 0 with
             | Some _ => body s
             | None => body s ++ p
             end)
            (tail (faults s))).
Proof. unfold sink_write, answer. by destruct (faults s) as [|[]]. Qed.

(** Runs a render call symbolically, whatever the sink answers. *)
Ltac go_run := go_ops; cbn in *.

(** Resolves the [Write] calls the run has reached. *)
Ltac go_writes :=
  cbn; repeat (rewrite sink_write_eq; cbn); rewrite <- ?app_assoc; cbn.

(** *** Computations that do not see the answers of the sink *)

Create HintDb blind discriminated.

Lemma blind_ret {A} (a : A) : blind (ret a).
Proof. by intros σ1 σ2 H. Qed.

Lemma blind_panic {A} msg : blind (@panic A msg).
Proof. by intros σ1 σ2 H. Qed.

Lemma blind_bind {A B} (m : Go A) (f : A -> Go B) :
  blind m -> (forall a, blind (f a)) -> blind (bind m f).
Proof.
  intros Hm Hf σ1 σ2 H. unfold bind.
  destruct (Hm σ1 σ2 H) as [Hfst Hsim].
  destruct (m σ1) as [[a1|msg1] σ1'], (m σ2) as [[a2|msg2] σ2'];
    cbn in Hfst, Hsim; try done.
  - injection Hfst as ->. by apply Hf.
  - by injection Hfst as ->.
Qed.

Lemma blind_assert_ResponseWriter : blind assert_ResponseWriter.
Proof. intros σ1 σ2 [Hrw Hh]. unfold similar. cbn. by rewrite Hrw. Qed.

Lemma blind_hw_Header_Get key : blind (hw_Header_Get key).
Proof. intros σ1 σ2 [Hrw Hh]. unfold similar. cbn. by rewrite Hh. Qed.

Lemma blind_Head_Write h : blind (Head_Write h).
Proof. intros σ1 σ2 [Hrw Hh]. unfold similar. cbn. by rewrite Hrw, Hh. Qed.

Lemma blind_assert_bytes v : blind (assert_bytes v).
Proof. unfold assert_bytes. by destruct (as_bytes v). Qed.

Lemma blind_assert_string v : blind (assert_string v).
Proof. unfold assert_string. by destruct (as_string v). Qed.

Lemma blind_bufPool_Get : blind bufPool_Get.
Proof. by intros σ1 σ2 H. Qed.

Lemma blind_bufPool_Put out : blind (bufPool_Put out).
Proof. by intros σ1 σ2 H. Qed.

Lemma similar_sink_write p1 p2 σ1 σ2 :
  similar σ1 σ2 ->
  similar (snd (w_Write p1 σ1)) (snd (w_Write p2 σ2)).
Proof.
  intros [Hrw Hh]. unfold w_Write, sink_write.
  by destruct (faults (sink σ1)) as [|[]], (faults (sink σ2)) as [|[]].
Qed.

(** A write whose answer is dropped. *)
Lemma blind_write_then {A} p (k : Go A) :
  blind k -> blind (bind (w_Write p) (fun _ => k)).
Proof.
  intros Hk σ1 σ2 H. unfold bind.
  pose proof (similar_sink_write p p σ1 σ2 H) as Hw.
  destruct (w_Write p σ1) as [[a1|msg1] σ1'] eqn:E1;
    destruct (w_Write p σ2) as [[a2|msg2] σ2'] eqn:E2; cbn in Hw.
  - by apply Hk.
  - unfold w_Write in E2. by destruct (sink_write p (sink σ2)).
  - unfold w_Write in E1. by destruct (sink_write p (sink σ1)).
  - unfold w_Write in E1. by destruct (sink_write p (sink σ1)).
Qed.

#[global] Hint Resolve blind_ret blind_panic blind_assert_ResponseWriter
  blind_hw_Header_Get blind_Head_Write blind_bufPool_Get blind_bufPool_Put
  blind_assert_bytes blind_assert_string : blind.
#[global] Hint Extern 2 (blind (bind (w_Write _) _)) =>
  apply blind_write_then : blind.
#[global] Hint Extern 3 (blind (bind _ _)) =>
  apply blind_bind; [|intros ?; cbv beta iota zeta] : blind.
#[global] Hint Extern 1 (blind (if ?b then _ else _)) => destruct b : blind.
#[global] Hint Extern 1 (blind (bind (Buffer_WriteTo ?out) _)) =>
  unfold Buffer_WriteTo; destruct out : blind.

Lemma blind_Data_Render d v : blind (Data_Render d v).
Proof.
  render_unfold. auto 10 with blind.
Qed.

Lemma blind_Text_Render t v : blind (Text_Render t v).
Proof.
  render_unfold. auto 10 with blind.
Qed.

Lemma similar_set_faults fs σ : similar (set_faults fs σ) σ.
Proof. done. Qed.

(** *** Type mismatch in [Data.Render] and [Text.Render] *)

(** C3, as stated in the specification, fails: handed a string,
    [Data.Render] does not return an error, it panics. *)
Lemma Data_Render_string_panics :
  let r := Data_Render (mkData (mkHead "application/octet-stream" 200))
             (AnyString "x") (mkWorld Sample.response_sink Sample.pool) in
  (exists msg, fst r = Panicked msg) /\ (forall e, fst r <> Done (Some e)).
Proof. split; [by eexists|done]. Qed.

(** C3, amended: on a value whose dynamic type is not [[]byte],
    [Data.Render] panics (a run-time type-assertion failure) and returns
    no error; so does [Text.Render] on a value that is not a [string].
    By then the header has been written on a header-capable sink; no
    [Write] is made and no body byte is written. *)
Theorem type_mismatch_panics (d : Data) (t : Text) (v : any) (σ : World) :
  (as_bytes v = None ->
     (exists msg, fst (Data_Render d v σ) = Panicked msg) /\
     (exists ct,
        calls (sink (snd (Data_Render d v σ))) =
          calls (sink σ) ++
            if is_ResponseWriter (sink σ)
            then [HeaderSet ContentType ct;
                  WriteHeader (Head_Status (Data_Head d))]
            else []) /\
     body (sink (snd (Data_Render d v σ))) = body (sink σ)) /\
  (as_string v = None ->
     (exists msg, fst (Text_Render t v σ) = Panicked msg) /\
     (exists ct,
        calls (sink (snd (Text_Render t v σ))) =
          calls (sink σ) ++
            if is_ResponseWriter (sink σ)
            then [HeaderSet ContentType ct;
                  WriteHeader (Head_Status (Text_Head t))]
            else []) /\
     body (sink (snd (Text_Render t v σ))) = body (sink σ)).
Proof.
  destruct σ as [[rw hdr cs bd fs] pool].
  split; intros Hv; go_run; rewrite Hv; destruct rw; try case_decide; cbn;
    rewrite <- ?app_assoc, ?app_nil_r;
    (split; [by eexists|split; [|done]]);
    first [by eexists | by exists EmptyString].
Qed.

Lemma type_mismatch_panics_witness :
  let d := mkData (mkHead "application/octet-stream" 200) in
  let t := mkText (mkHead "text/plain" 200) in
  let σ := mkWorld Sample.response_sink Sample.pool in
  (exists msg, fst (Data_Render d (AnyInt 7) σ) = Panicked msg) /\
  (exists msg, fst (Text_Render t (AnyInt 7) σ) = Panicked msg).
Proof.
  intros d t σ.
  destruct (type_mismatch_panics d t (AnyInt 7) σ) as [HD HT].
  split; [apply HD | apply HT]; reflexivity.
Defined.

(** *** A content type chosen before the call *)

(** C9: on a header-capable sink, [Data.Render] and [Text.Render] leave
    a content type that is already set as the response's content type,
    and apply the configured one only when none is set. *)
Theorem Data_Text_keep_content_type (d : Data) (t : Text) (v : any) (σ : World) :
  is_ResponseWriter (sink σ) = true ->
  let c := Header_Get (header (sink σ)) ContentType in
  Header_Get (header (sink (snd (Data_Render d v σ)))) ContentType
    = (if decide (c = "") then Head_ContentType (Data_Head d) else c) /\
  Header_Get (header (sink (snd (Text_Render t v σ)))) ContentType
    = (if decide (c = "") then Head_ContentType (Text_Head t) else c).
Proof.
  destruct σ as [[rw hdr cs bd fs] pool]. cbn [sink is_ResponseWriter header].
  intros ->. set (c := Header_Get hdr ContentType). go_unfold.
  cbn [sink header fst snd is_ResponseWriter]. fold c.
  split.
  - destruct (as_bytes v); destruct (decide (c = "")); destruct fs as [|[]];
      cbn; unfold Header_Get, Header_Set; by rewrite lookup_insert_eq.
  - destruct (as_string v); destruct (decide (c = "")); destruct fs as [|[]];
      cbn; unfold Header_Get, Header_Set; by rewrite lookup_insert_eq.
Qed.

Lemma Data_Text_keep_content_type_witness :
  let d := mkData (mkHead "application/octet-stream" 200) in
  let t := mkText (mkHead "text/plain" 200) in
  let σ := mkWorld Sample.custom_sink Sample.pool in
  Header_Get (header (sink (snd (Data_Render d (AnyBytes (B "hi")) σ))))
    ContentType = "text/custom" /\
  Header_Get (header (sink (snd (Text_Render t (AnyString "hi") σ))))
    ContentType = "text/custom".
Proof.
  intros d t σ. split.
  - exact (proj1 (Data_Text_keep_content_type d t (AnyBytes (B "hi")) σ
                    eq_refl)).
  - exact (proj2 (Data_Text_keep_content_type d t (AnyString "hi") σ
                    eq_refl)).
Defined.

Section RenderFacts.

Variable json_Marshal : any -> bytes * option error.
Variable json_MarshalIndent : any -> string -> string -> bytes * option error.
Variable xml_Marshal : any -> bytes * option error.
Variable xml_MarshalIndent : any -> string -> string -> bytes * option error.
Variable Template : Type.
Variable ExecuteTemplate : Template -> string -> any -> bytes * option error.

Local Abbreviation Render :=
  (Render json_Marshal json_MarshalIndent xml_Marshal xml_MarshalIndent
          Template ExecuteTemplate).
Local Abbreviation HTML_Render := (HTML_Render Template ExecuteTemplate).
Local Abbreviation JSON_Render := (JSON_Render json_Marshal json_MarshalIndent).
Local Abbreviation JSONP_Render := (JSONP_Render json_Marshal json_MarshalIndent).
Local Abbreviation XML_Render := (XML_Render xml_Marshal xml_MarshalIndent).
Local Abbreviation JSON_marshal := (JSON_marshal json_Marshal json_MarshalIndent).
Local Abbreviation failure_before_write :=
  (buffered_error json_Marshal json_MarshalIndent xml_Marshal
     xml_MarshalIndent Template ExecuteTemplate).
Local Abbreviation XML_marshal := (XML_marshal xml_Marshal xml_MarshalIndent).

(** *** The buffer pool across [HTML.Render] *)

(** A successful [HTML.Render] hands its buffer back; one whose
    template execution fails returns with the buffer still lent. *)
Lemma HTML_Render_pool (h : HTML Template) (binding : any) (σ : World) :
  bufPool (snd (HTML_Render h binding σ)) =
    match snd (ExecuteTemplate (HTML_Templates h) (HTML_Name h) binding) with
    | None => mkPool (S (Nat.pred (idle (bufPool σ)))) (lent (bufPool σ))
    | Some _ => mkPool (Nat.pred (idle (bufPool σ))) (S (lent (bufPool σ)))
    end.
Proof.
  destruct σ as [[rw hdr cs bd fs] [n m]]. go_unfold. cbn.
  destruct (ExecuteTemplate _ _ _) as [out [e|]]; [done|]. cbn.
  destruct rw, out, fs as [|[]]; done.
Qed.

(** A failure ahead of the first write is returned with the sink as
    it was. *)
Lemma Render_buffered_error (e : Engine Template) (v : any) (σ : World) err :
  failure_before_write e v = Some err ->
  fst (Render e v σ) = Done (Some err) /\
  sink (snd (Render e v σ)) = sink σ.
Proof.
  destruct e as [d|h|j|j|t|x]; cbn [buffered_error]; try done;
    go_unfold.
  - destruct (ExecuteTemplate _ _ _) as [out o]. cbn. by intros ->.
  - destruct (JSON_StreamingJSON j); [done|].
    destruct (JSON_Indent j);
      [destruct (json_MarshalIndent _ _ _) as [r o]
      |destruct (json_Marshal _) as [r o]]; cbn; by intros ->.
  - destruct (JSONP_Indent j);
      [destruct (json_MarshalIndent _ _ _) as [r o]
      |destruct (json_Marshal _) as [r o]]; cbn; by intros ->.
  - destruct (XML_Indent x);
      [destruct (xml_MarshalIndent _ _ _) as [r o]
      |destruct (xml_Marshal _) as [r o]]; cbn; by intros ->.
Qed.

(** *** Errors of the sink *)

Lemma blind_HTML_Render h v : blind (HTML_Render h v).
Proof.
  render_unfold.
  destruct (ExecuteTemplate _ _ _) as [emitted [err|]];
    auto 12 with blind.
Qed.

Lemma blind_JSON_Render j v :
  JSON_StreamingJSON j = false -> blind (JSON_Render j v).
Proof.
  intros Hs. render_unfold. rewrite Hs.
  destruct (JSON_Indent j);
    [destruct (json_MarshalIndent _ _ _) as [r [err|]]
    |destruct (json_Marshal _) as [r [err|]]];
    auto 12 with blind.
Qed.

Lemma blind_JSONP_Render j v : blind (JSONP_Render j v).
Proof.
  render_unfold.
  destruct (JSONP_Indent j);
    [destruct (json_MarshalIndent _ _ _) as [r [err|]]
    |destruct (json_Marshal _) as [r [err|]]];
    auto 14 with blind.
Qed.

Lemma blind_XML_Render x v : blind (XML_Render x v).
Proof.
  render_unfold.
  destruct (XML_Indent x);
    [destruct (xml_MarshalIndent _ _ _) as [r [err|]]
    |destruct (xml_Marshal _) as [r [err|]]];
    auto 12 with blind.
Qed.

(** C2, amended: of the errors a sink answers to a write, only the one
    for the payload write of [JSON] in streaming mode reaches the
    caller.  [Data], [HTML], buffered [JSON], [JSONP], [Text] and
    [XML] drop the result of every write: what [Render] returns does
    not depend on the answers of the sink, and an error it returns is
    the error of its serialization or template execution. *)
Theorem write_errors_dropped_unless_streaming :
  (forall (e : Engine Template) (v : any) (σ : World) fs,
      is_streaming e = false ->
      fst (Render e v (set_faults fs σ)) = fst (Render e v σ)) /\
  (forall (e : Engine Template) (v : any) (σ : World) err,
      is_streaming e = false ->
      fst (Render e v σ) = Done (Some err) ->
      failure_before_write e v = Some err) /\
  (forall (j : JSON) (v : any) (σ : World) b,
      JSON_StreamingJSON j = true ->
      json_Marshal v = (b, None) ->
      fst (JSON_Render j v σ) =
        Done (answer (faults (sink σ))
                (if (0 <? length (JSON_Prefix j))%nat then 1 else 0))).
Proof.
  split; [|split].
  - intros e v σ fs Hs.
    assert (blind (Render e v)) as Hb.
    { destruct e; cbn in Hs |- *;
        auto using blind_Data_Render, blind_Text_Render, blind_HTML_Render,
          blind_JSON_Render, blind_JSONP_Render, blind_XML_Render. }
    apply Hb, similar_set_faults.
  - intros e v [[rw hdr cs bd fs] pool] err Hs.
    destruct e as [d|h|j|j|t|x]; cbn [buffered_error]; cbn in Hs; go_run.
    + by destruct (as_bytes v), rw; go_writes.
    + destruct (ExecuteTemplate _ _ _) as [out [o|]]; cbn; [congruence|].
      by destruct rw, out; go_writes.
    + rewrite Hs.
      destruct (JSON_Indent j);
        [destruct (json_MarshalIndent _ _ _) as [r [o|]]
        |destruct (json_Marshal _) as [r [o|]]]; cbn; try congruence;
        by destruct rw, (JSON_Prefix j); go_writes.
    + destruct (JSONP_Indent j);
        [destruct (json_MarshalIndent _ _ _) as [r [o|]]
        |destruct (json_Marshal _) as [r [o|]]]; cbn; try congruence;
        by destruct rw; go_writes.
    + by destruct (as_string v), rw; go_writes.
    + destruct (XML_Indent x);
        [destruct (xml_MarshalIndent _ _ _) as [r [o|]]
        |destruct (xml_Marshal _) as [r [o|]]]; cbn; try congruence;
        by destruct rw, (XML_Prefix x); go_writes.
  - intros j v [[rw hdr cs bd fs] pool] b Hs Hm. go_unfold.
    rewrite Hs, Hm.
    destruct rw, (JSON_Prefix j); cbn;
      destruct fs as [|[] [|[]]]; reflexivity.
Qed.

(** *** Failures before the first write *)

(** C4: when serialization or template execution fails, buffered
    [JSON], [XML], [JSONP] and [HTML] return that error and leave the
    sink as they found it: no header set, no byte written, no call
    made. *)
Theorem buffered_failure_leaves_sink_untouched (v : any) (σ : World) (e : error) :
  (forall j : JSON,
      JSON_StreamingJSON j = false ->
      snd (JSON_marshal (JSON_Indent j) v) = Some e ->
      JSON_Render j v σ = (Done (Some e), σ)) /\
  (forall x : XML,
      snd (XML_marshal (XML_Indent x) v) = Some e ->
      XML_Render x v σ = (Done (Some e), σ)) /\
  (forall j : JSONP,
      snd (JSON_marshal (JSONP_Indent j) v) = Some e ->
      JSONP_Render j v σ = (Done (Some e), σ)) /\
  (forall h : HTML Template,
      snd (ExecuteTemplate (HTML_Templates h) (HTML_Name h) v) = Some e ->
      fst (HTML_Render h v σ) = Done (Some e) /\
      sink (snd (HTML_Render h v σ)) = sink σ).
Proof.
  repeat split.
  - intros j Hs. go_unfold. rewrite Hs.
    destruct (JSON_Indent j);
      [destruct (json_MarshalIndent _ _ _) as [r err]
      |destruct (json_Marshal _) as [r err]]; cbn; by intros ->.
  - intros x. go_unfold.
    destruct (XML_Indent x);
      [destruct (xml_MarshalIndent _ _ _) as [r err]
      |destruct (xml_Marshal _) as [r err]]; cbn; by intros ->.
  - intros j. go_unfold.
    destruct (JSONP_Indent j);
      [destruct (json_MarshalIndent _ _ _) as [r err]
      |destruct (json_Marshal _) as [r err]]; cbn; by intros ->.
  - go_unfold. cbn.
    destruct (ExecuteTemplate _ _ _) as [out err]; cbn in *. by subst.
  - go_unfold. cbn.
    destruct (ExecuteTemplate _ _ _) as [out err]; cbn in *. by subst.
Qed.

(** *** The header write *)

(** C5, amended: a render call whose serialization or template execution
    does not fail ahead of its first write sets the content type and
    writes the status code exactly once on a header-capable sink, and
    before any [Write]; on a plain sink it makes [Write] calls only and
    touches no header. *)
Theorem header_once_before_body (e : Engine Template) (v : any) (σ : World) :
  failure_before_write e v = None ->
  let s' := sink (snd (Render e v σ)) in
  if is_ResponseWriter (sink σ)
  then exists ct ws,
         calls s' = calls (sink σ) ++
           HeaderSet ContentType ct
             :: WriteHeader (Head_Status (Engine_Head e)) :: ws /\
         forallb is_Write ws = true
  else exists ws,
         calls s' = calls (sink σ) ++ ws /\
         forallb is_Write ws = true /\
         header s' = header (sink σ).
Proof.
  destruct σ as [[rw hdr cs bd fs] pool].
  destruct e as [d|h|j|j|t|x]; cbn [buffered_error]; intros Herr; go_run.
  - destruct (as_bytes v), rw; try case_decide; go_writes;
      eauto 6 using app_nil_r.
  - destruct (ExecuteTemplate _ _ _) as [out o]. cbn in Herr. subst o.
    destruct rw, out; go_writes; eauto 6 using app_nil_r.
  - destruct (JSON_StreamingJSON j).
    + destruct (json_Marshal v) as [r [o|]], rw, (JSON_Prefix j);
        go_writes; eauto 6 using app_nil_r.
    + destruct (JSON_Indent j);
        [destruct (json_MarshalIndent _ _ _) as [r o]
        |destruct (json_Marshal _) as [r o]]; cbn in Herr; subst o;
        destruct rw, (JSON_Prefix j); go_writes; eauto 6.
  - destruct (JSONP_Indent j);
      [destruct (json_MarshalIndent _ _ _) as [r o]
      |destruct (json_Marshal _) as [r o]]; cbn in Herr; subst o;
      destruct rw; go_writes; eauto 6.
  - destruct (as_string v), rw; try case_decide; go_writes;
      eauto 6 using app_nil_r.
  - destruct (XML_Indent x);
      [destruct (xml_MarshalIndent _ _ _) as [r o]
      |destruct (xml_Marshal _) as [r o]]; cbn in Herr; subst o;
      destruct rw, (XML_Prefix x); go_writes; eauto 6.
Qed.

(** C10, amended: [JSON] (both modes), [JSONP], [XML] and [HTML] never
    read the sink's content type: whenever the call gets to its header
    write, that is unless serialization or template execution fails
    ahead of the first write, the configured content type replaces
    whatever the header-capable sink held. *)
Theorem content_type_overwritten (e : Engine Template) (v : any) (σ : World) :
  is_ResponseWriter (sink σ) = true ->
  reads_content_type e = false ->
  failure_before_write e v = None ->
  let s' := sink (snd (Render e v σ)) in
  header s' =
    Header_Set ContentType (Head_ContentType (Engine_Head e))
               (header (sink σ)) /\
  Header_Get (header s') ContentType = Head_ContentType (Engine_Head e).
Proof.
  destruct σ as [[rw hdr cs bd fs] pool].
  cbn [sink is_ResponseWriter header]. intros -> Hr Herr. cbv zeta.
  set (s' := sink _).
  assert (header s' =
    Header_Set ContentType (Head_ContentType (Engine_Head e)) hdr) as Hh.
  { subst s'. destruct e as [d|h|j|j|t|x]; try done;
      cbn [buffered_error] in Herr; go_run.
    - destruct (ExecuteTemplate _ _ _) as [out o]. cbn in Herr. subst o.
      destruct out; by go_writes.
    - destruct (JSON_StreamingJSON j).
      + destruct (json_Marshal v) as [r [o|]], (JSON_Prefix j); by go_writes.
      + destruct (JSON_Indent j);
          [destruct (json_MarshalIndent _ _ _) as [r o]
          |destruct (json_Marshal _) as [r o]]; cbn in Herr; subst o;
          destruct (JSON_Prefix j); by go_writes.
    - destruct (JSONP_Indent j);
        [destruct (json_MarshalIndent _ _ _) as [r o]
        |destruct (json_Marshal _) as [r o]]; cbn in Herr; subst o;
        by go_writes.
    - destruct (XML_Indent x);
        [destruct (xml_MarshalIndent _ _ _) as [r o]
        |destruct (xml_Marshal _) as [r o]]; cbn in Herr; subst o;
        destruct (XML_Prefix x); by go_writes. }
  split; [done|]. rewrite Hh. unfold Header_Get, Header_Set.
  by rewrite lookup_insert_eq.
Qed.

(** *** The bodies of [JSON], [XML] and [JSONP] *)


(** C7: buffered [JSON] writes, after the prefix, the serialized bytes
    as they are when [UnEscapeHTML] is off, so that the escape
    sequences of the serializer are in the body; when it is on, every
    one of the three escape sequences is replaced: none is left, and
    each one that was there shows as its literal [<], [>] or [&]. *)
Theorem unescape_html_option (j : JSON) (v : any) (σ : World) (js : bytes) :
  JSON_StreamingJSON j = false ->
  faults (sink σ) = [] ->
  JSON_marshal (JSON_Indent j) v = (js, None) ->
  let serialized := if JSON_Indent j then js ++ [newline] else js in
  let shown :=
    if JSON_UnEscapeHTML j then unescapeHTML serialized else serialized in
  body (sink (snd (JSON_Render j v σ)))
    = body (sink σ) ++ JSON_Prefix j ++ shown /\
  forall pat lit, In (pat, lit) html_escapes ->
    contains pat serialized = true ->
    if JSON_UnEscapeHTML j
    then contains pat shown = false /\
         contains [lit] shown = true /\
         contains [lit] (body (sink (snd (JSON_Render j v σ)))) = true
    else contains pat shown = true /\
         contains pat (body (sink (snd (JSON_Render j v σ)))) = true.
Proof.
  destruct σ as [[rw hdr cs bd fs] pool]. cbn [sink faults body].
  intros Hs -> Hm. cbv zeta.
  set (serialized := if JSON_Indent j then js ++ [newline] else js).
  set (shown :=
    if JSON_UnEscapeHTML j then unescapeHTML serialized else serialized).
  assert (body (sink (snd (JSON_Render j v
            (mkWorld (mkSink rw hdr cs bd []) pool))))
          = bd ++ JSON_Prefix j ++ shown) as Hbody.
  { subst shown serialized. go_run. rewrite Hs.
    destruct (JSON_Indent j); rewrite Hm;
      destruct (JSON_UnEscapeHTML j), rw, (JSON_Prefix j); by go_writes. }
  split; [done|]. rewrite Hbody. intros pat lit Hin Hpat.
  subst shown. destruct (JSON_UnEscapeHTML j).
  - pose proof (unescapeHTML_literal serialized pat lit Hin Hpat) as Hlit.
    split; [by eapply unescapeHTML_clean|].
    split; [done|]. by do 2 apply contains_app_r.
  - split; [done|]. by do 2 apply contains_app_r.
Qed.

(** C8: the body [JSONP] writes is the callback name, [(], the JSON
    serialization of the value (indented when [Indent] is set), [)],
    [;] and, only when [Indent] is set, one newline. *)
Theorem JSONP_body (j : JSONP) (v : any) (σ : World) (js : bytes) :
  faults (sink σ) = [] ->
  JSON_marshal (JSONP_Indent j) v = (js, None) ->
  fst (JSONP_Render j v σ) = Done None /\
  body (sink (snd (JSONP_Render j v σ)))
    = body (sink σ) ++ B (JSONP_Callback j) ++ B "(" ++ js
        ++ B ")" ++ B ";" ++ (if JSONP_Indent j then [newline] else []).
Proof.
  destruct σ as [[rw hdr cs bd fs] pool]. cbn [sink faults body].
  intros -> Hm. go_run.
  destruct (JSONP_Indent j); rewrite Hm; destruct rw; go_writes;
    by rewrite B_app, <- ?app_assoc.
Qed.

End RenderFacts.

(** ** The renderers on the sample collaborators *)

Section Samples.

Import Sample.

Local Abbreviation JSON_Render' := (JSON_Render json_Marshal json_MarshalIndent).
Local Abbreviation JSONP_Render' := (JSONP_Render json_Marshal json_MarshalIndent).
Local Abbreviation XML_Render' := (XML_Render xml_Marshal xml_MarshalIndent).
Local Abbreviation HTML_Render' := (HTML_Render Template ExecuteTemplate).

(** C1 fails on the code: [HTML.Render] returns the template error
    ahead of [bufPool.Put], so a failed render leaves the pool with
    one buffer fewer and one buffer still lent, where a successful
    render leaves the pool as it found it. *)
Theorem HTML_Render_failure_keeps_buffer :
  let failed := HTML_Render' html_hello (AnyInt 7) σ0 in
  let fine :=
    HTML_Render' html_hello (AnyMap [("Name", AnyString "Ann")]) σ0 in
  bufPool σ0 = mkPool 2 0 /\
  fst failed = Done (Some (Err "can't evaluate field Name")) /\
  bufPool (snd failed) = mkPool 1 1 /\
  fst fine = Done None /\
  bufPool (snd fine) = mkPool 2 0.
Proof. repeat split. Qed.

(** C2, as stated in the specification, fails: the sink rejects the
    body write of [Data.Render], and [Render] returns [nil]. *)
Lemma Data_Render_drops_write_error :
  let d := mkData (mkHead "application/octet-stream" 200) in
  let σ := mkWorld broken_sink pool in
  fst (sink_write (B "hi") (sink σ)) = Some (Err "connection reset by peer") /\
  fst (Data_Render d (AnyBytes (B "hi")) σ) = Done None /\
  body (sink (snd (Data_Render d (AnyBytes (B "hi")) σ))) = [].
Proof. repeat split. Qed.

Lemma write_errors_dropped_unless_streaming_witness :
  fst (Render (EData (mkData head_json)) (AnyBytes (B "hi"))
         (set_faults [Some (Err "connection reset by peer")] σ0))
    = fst (Render (EData (mkData head_json)) (AnyBytes (B "hi")) σ0) /\
  fst (JSON_Render' json_stream v_obj (mkWorld broken_sink pool))
    = Done (Some (Err "connection reset by peer")).
Proof.
  destruct (write_errors_dropped_unless_streaming
              json_Marshal json_MarshalIndent xml_Marshal xml_MarshalIndent
              Template ExecuteTemplate) as (Hdrop & _ & Hstream).
  split.
  - apply Hdrop. reflexivity.
  - apply (Hstream json_stream v_obj (mkWorld broken_sink pool) obj_compact);
      reflexivity.
Defined.

Lemma buffered_failure_leaves_sink_untouched_witness :
  JSON_Render' json_plain AnyChan σ0
    = (Done (Some (Err "unsupported type")), σ0) /\
  XML_Render' xml_plain AnyChan σ0
    = (Done (Some (Err "unsupported type")), σ0) /\
  JSONP_Render' jsonp_cb AnyChan σ0
    = (Done (Some (Err "unsupported type")), σ0) /\
  sink (snd (HTML_Render' html_hello (AnyInt 7) σ0)) = sink σ0.
Proof.
  destruct (buffered_failure_leaves_sink_untouched
              json_Marshal json_MarshalIndent xml_Marshal xml_MarshalIndent
              Template ExecuteTemplate AnyChan σ0 (Err "unsupported type"))
    as (HJ & HX & HP & _).
  destruct (buffered_failure_leaves_sink_untouched
              json_Marshal json_MarshalIndent xml_Marshal xml_MarshalIndent
              Template ExecuteTemplate (AnyInt 7) σ0
              (Err "can't evaluate field Name"))
    as (_ & _ & _ & HH).
  split; [apply HJ; reflexivity|].
  split; [apply HX; reflexivity|].
  split; [apply HP; reflexivity|].
  apply (HH html_hello). reflexivity.
Defined.

(** C5, as stated in the specification, fails: a buffered [JSON]
    render of a value that cannot be serialized, against a
    header-capable sink, writes the header not once but never. *)
Lemma header_not_written_on_failed_encoding :
  let r := Render (EJSON json_plain) AnyChan σ0 in
  is_ResponseWriter (sink σ0) = true /\
  header_writes (calls (sink (snd r))) = 0%nat /\
  header_writes (calls (sink (snd r))) <> 1%nat.
Proof. repeat split. intros H. vm_compute in H. discriminate H. Qed.

Lemma header_once_before_body_witness :
  exists ct ws,
    calls (sink (snd (Render (EJSON json_plain) v_obj σ0)))
      = calls (sink σ0) ++
          HeaderSet ContentType ct :: WriteHeader 200 :: ws /\
    forallb is_Write ws = true.
Proof.
  exact (header_once_before_body
           json_Marshal json_MarshalIndent xml_Marshal xml_MarshalIndent
           Template ExecuteTemplate (EJSON json_plain) v_obj σ0 eq_refl).
Defined.

(** C10, as stated in the specification, fails: a buffered [JSON]
    render of a value that cannot be serialized leaves the content
    type the sink already had. *)
Lemma content_type_kept_on_failed_encoding :
  let σ := mkWorld custom_sink pool in
  let r := Render (EJSON json_plain) AnyChan σ in
  Header_Get (header (sink σ)) ContentType = "text/custom" /\
  Header_Get (header (sink (snd r))) ContentType = "text/custom" /\
  Header_Get (header (sink (snd r))) ContentType
    <> Head_ContentType (JSON_Head json_plain).
Proof. repeat split. intros H. vm_compute in H. discriminate H. Qed.

Lemma content_type_overwritten_witness :
  let σ := mkWorld custom_sink pool in
  Header_Get (header (sink σ)) ContentType = "text/custom" /\
  Header_Get (header (sink (snd (Render (EJSON json_plain) v_obj σ))))
    ContentType = "application/json".
Proof.
  intros σ. split; [reflexivity|].
  exact (proj2 (content_type_overwritten
           json_Marshal json_MarshalIndent xml_Marshal xml_MarshalIndent
           Template ExecuteTemplate (EJSON json_plain) v_obj σ
           eq_refl eq_refl eq_refl)).
Defined.


Lemma unescape_html_option_witness :
  let unescaped := body (sink (snd (JSON_Render' json_unescape v_markup σ0))) in
  let escaped := body (sink (snd (JSON_Render' json_plain v_markup σ0))) in
  unescaped = [dquote] ++ B "<b>&" ++ [dquote] /\
  contains [x3c] unescaped = true /\
  escaped = markup_escaped /\
  contains (B "\u003c") escaped = true.
Proof.
  pose proof (unescape_html_option
                json_Marshal json_MarshalIndent json_unescape v_markup σ0
                markup_escaped eq_refl eq_refl eq_refl) as [Hon Hlit].
  pose proof (unescape_html_option
                json_Marshal json_MarshalIndent json_plain v_markup σ0
                markup_escaped eq_refl eq_refl eq_refl) as [Hoff Hesc].
  split; [exact Hon|].
  split; [exact (proj2 (proj2 (Hlit _ _ (or_introl eq_refl) eq_refl)))|].
  split; [exact Hoff|].
  exact (proj2 (Hesc _ _ (or_introl eq_refl) eq_refl)).
Defined.

Lemma JSONP_body_witness :
  body (sink (snd (JSONP_Render' jsonp_cb v_obj σ0)))
    = B "cb({" ++ [dquote] ++ B "a" ++ [dquote] ++ B ":1});".
Proof.
  exact (proj2 (JSONP_body json_Marshal json_MarshalIndent
                  jsonp_cb v_obj σ0 obj_compact eq_refl eq_refl)).
Defined.

End Samples.


(** * Further properties of the renderers *)

(** ** The replacements of [JSON.Render], continued *)

Section ReplaceMore.

Implicit Types (s t : bytes).
Variables old new : bytes.
Hypothesis old_nonempty : old <> [].

(** Without an occurrence of [old] nothing is replaced. *)
Lemma bytes_Replace_absent s :
  contains old s = false -> bytes_Replace s old new = s.
Proof.
  apply (bytes_Replace_ind old new
    (fun s r => contains old s = false -> r = s)); [done|done| |].
  - intros c t Hhit _. rewrite contains_cons, Hhit. done.
  - intros c t _ IH. rewrite contains_cons.
    intros [_ Ht]%orb_false_iff. by rewrite IH.
Qed.

(** A replacement by something no longer than [old] never lengthens. *)
Lemma length_bytes_Replace s :
  (length new <= length old)%nat ->
  (length (bytes_Replace s old new) <= length s)%nat.
Proof.
  intros Hlen.
  apply (bytes_Replace_ind old new
    (fun s r => (length r <= length s)%nat)); [done|done| |].
  - intros c t Hhit IH. rewrite length_app.
    apply has_prefix_inv in Hhit as Hs.
    rewrite Hs at 2. rewrite length_app. lia.
  - intros c t _ IH. cbn [length]. lia.
Qed.

End ReplaceMore.

(** X1: bytes that hold none of the three escape sequences go through
    the unescape step of [JSON.Render] unchanged. *)
Theorem unescapeHTML_identity (s : bytes) :
  (forall pat lit, In (pat, lit) html_escapes -> contains pat s = false) ->
  unescapeHTML s = s.
Proof.
  intros H. unfold unescapeHTML.
  rewrite (bytes_Replace_absent (B "\u003c") (B "<") ltac:(done) s)
    by (apply (H _ x3c); cbn; auto).
  rewrite (bytes_Replace_absent (B "\u003e") (B ">") ltac:(done) s)
    by (apply (H _ x3e); cbn; auto).
  apply bytes_Replace_absent; [done|]. apply (H _ x26); cbn; auto.
Qed.

Lemma unescapeHTML_identity_witness :
  unescapeHTML Sample.obj_compact = Sample.obj_compact.
Proof.
  apply unescapeHTML_identity.
  intros pat lit [E|[E|[E|[]]]]; injection E as <- <-; reflexivity.
Defined.

(** X2: the unescape step of [JSON.Render] is idempotent: a second pass
    finds nothing left to replace. *)
Theorem unescapeHTML_idempotent (s : bytes) :
  unescapeHTML (unescapeHTML s) = unescapeHTML s.
Proof.
  apply unescapeHTML_identity. intros pat lit Hin.
  by eapply unescapeHTML_clean.
Qed.

(** X3: the unescape step of [JSON.Render] never lengthens the
    serialized bytes. *)
Theorem unescapeHTML_length (s : bytes) :
  (length (unescapeHTML s) <= length s)%nat.
Proof.
  unfold unescapeHTML.
  pose proof (length_bytes_Replace (B "\u003c") (B "<") ltac:(done) s
                ltac:(vm_compute; lia)) as H1.
  set (r1 := bytes_Replace s (B "\u003c") (B "<")) in *.
  pose proof (length_bytes_Replace (B "\u003e") (B ">") ltac:(done) r1
                ltac:(vm_compute; lia)) as H2.
  set (r2 := bytes_Replace r1 (B "\u003e") (B ">")) in *.
  pose proof (length_bytes_Replace (B "\u0026") (B "&") ltac:(done) r2
                ltac:(vm_compute; lia)) as H3.
  lia.
Qed.

(** ** What a render call leaves alone *)

Lemma grows_refl s : grows s s.
Proof.
  repeat split; [exists []|exists []|exists O];
    by rewrite ?app_nil_r, ?drop_0.
Qed.

Lemma grows_trans s1 s2 s3 : grows s1 s2 -> grows s2 s3 -> grows s1 s3.
Proof.
  intros (Hrw1 & [cs1 Hc1] & [o1 Hb1] & [n1 Hf1])
         (Hrw2 & [cs2 Hc2] & [o2 Hb2] & [n2 Hf2]).
  split; [congruence|].
  split; [exists (cs1 ++ cs2); by rewrite Hc2, Hc1, app_assoc|].
  split; [exists (o1 ++ o2); by rewrite Hb2, Hb1, app_assoc|].
  exists (n1 + n2)%nat. by rewrite Hf2, Hf1, drop_drop.
Qed.

Lemma grows_sink_write p s : grows s (snd (sink_write p s)).
Proof.
  rewrite sink_write_eq. cbn.
  split; [done|]. split; [by eexists|].
  split; [|exists 1%nat; by destruct (faults s)].
  destruct (answer (faults s) 0); [exists []; by rewrite app_nil_r|by eexists].
Qed.

Create HintDb grow discriminated.

Lemma append_only_ret {A} (a : A) : append_only (ret a).
Proof. intros σ. apply grows_refl. Qed.

Lemma append_only_panic {A} msg : append_only (@panic A msg).
Proof. intros σ. apply grows_refl. Qed.

Lemma append_only_bind {A B} (m : Go A) (f : A -> Go B) :
  append_only m -> (forall a, append_only (f a)) -> append_only (bind m f).
Proof.
  intros Hm Hf σ. unfold bind. specialize (Hm σ).
  destruct (m σ) as [[a|msg] σ']; [|done].
  eapply grows_trans; [exact Hm|apply Hf].
Qed.

Lemma append_only_assert_ResponseWriter : append_only assert_ResponseWriter.
Proof. intros σ. apply grows_refl. Qed.

Lemma append_only_hw_Header_Get key : append_only (hw_Header_Get key).
Proof. intros σ. apply grows_refl. Qed.

Lemma append_only_Head_Write h : append_only (Head_Write h).
Proof.
  intros σ. cbn. split; [done|]. rewrite <- app_assoc.
  split; [by eexists|]. split; [exists []; by rewrite app_nil_r|].
  by exists O.
Qed.

Lemma append_only_w_Write p : append_only (w_Write p).
Proof.
  intros σ. unfold w_Write.
  pose proof (grows_sink_write p (sink σ)) as H.
  by destruct (sink_write p (sink σ)).
Qed.

Lemma append_only_assert_bytes v : append_only (assert_bytes v).
Proof.
  unfold assert_bytes.
  destruct (as_bytes v); [apply append_only_ret|apply append_only_panic].
Qed.

Lemma append_only_assert_string v : append_only (assert_string v).
Proof.
  unfold assert_string.
  destruct (as_string v); [apply append_only_ret|apply append_only_panic].
Qed.

Lemma append_only_bufPool_Get : append_only bufPool_Get.
Proof. intros σ. apply grows_refl. Qed.

Lemma append_only_bufPool_Put out : append_only (bufPool_Put out).
Proof. intros σ. apply grows_refl. Qed.

#[global] Hint Resolve append_only_ret append_only_panic
  append_only_assert_ResponseWriter append_only_hw_Header_Get
  append_only_Head_Write append_only_w_Write append_only_assert_bytes
  append_only_assert_string append_only_bufPool_Get append_only_bufPool_Put
  : grow.
#[global] Hint Extern 3 (append_only (bind _ _)) =>
  apply append_only_bind; [|intros ?; cbv beta iota zeta] : grow.
#[global] Hint Extern 1 (append_only (if ?b then _ else _)) =>
  destruct b : grow.
#[global] Hint Extern 1 (append_only (Buffer_WriteTo ?out)) =>
  unfold Buffer_WriteTo; destruct out : grow.

Section RenderFrame.

Variable json_Marshal : any -> bytes * option error.
Variable json_MarshalIndent : any -> string -> string -> bytes * option error.
Variable xml_Marshal : any -> bytes * option error.
Variable xml_MarshalIndent : any -> string -> string -> bytes * option error.
Variable Template : Type.
Variable ExecuteTemplate : Template -> string -> any -> bytes * option error.

Local Abbreviation Render :=
  (Render json_Marshal json_MarshalIndent xml_Marshal xml_MarshalIndent
          Template ExecuteTemplate).
Local Abbreviation HTML_Render := (HTML_Render Template ExecuteTemplate).
Local Abbreviation JSON_Render := (JSON_Render json_Marshal json_MarshalIndent).
Local Abbreviation XML_Render := (XML_Render xml_Marshal xml_MarshalIndent).
Local Abbreviation JSON_marshal := (JSON_marshal json_Marshal json_MarshalIndent).
Local Abbreviation XML_marshal := (XML_marshal xml_Marshal xml_MarshalIndent).
Local Abbreviation failure_before_write :=
  (buffered_error json_Marshal json_MarshalIndent xml_Marshal
     xml_MarshalIndent Template ExecuteTemplate).

Lemma append_only_Render (e : Engine Template) (v : any) :
  append_only (Render e v).
Proof.
  destruct e as [d|h|j|j|t|x]; render_unfold.
  - auto 10 with grow.
  - destruct (ExecuteTemplate _ _ _) as [emitted [err|]];
      auto 12 with grow.
  - destruct (JSON_StreamingJSON j).
    + destruct (json_Marshal v) as [r [err|]]; auto 12 with grow.
    + destruct (JSON_Indent j);
        [destruct (json_MarshalIndent _ _ _) as [r [err|]]
        |destruct (json_Marshal _) as [r [err|]]];
        auto 12 with grow.
  - destruct (JSONP_Indent j);
      [destruct (json_MarshalIndent _ _ _) as [r [err|]]
      |destruct (json_Marshal _) as [r [err|]]];
      auto 14 with grow.
  - auto 10 with grow.
  - destruct (XML_Indent x);
      [destruct (xml_MarshalIndent _ _ _) as [r [err|]]
      |destruct (xml_Marshal _) as [r [err|]]];
      auto 12 with grow.
Qed.



(** The header map after a render call. *)
Lemma Render_header (e : Engine Template) (v : any) (σ : World) :
  header (sink (snd (Render e v σ))) =
    match failure_before_write e v with
    | Some _ => header (sink σ)
    | None =>
        if is_ResponseWriter (sink σ)
        then Header_Set ContentType (written_content_type e (sink σ))
                        (header (sink σ))
        else header (sink σ)
    end.
Proof.
  destruct σ as [[rw hdr cs bd fs] pool].
  destruct e as [d|h|j|j|t|x]; cbn [buffered_error];
    unfold written_content_type; go_run.
  - destruct (as_bytes v), rw; go_writes; repeat case_decide; try done;
      cbn in *; congruence.
  - destruct (ExecuteTemplate _ _ _) as [out [o|]], rw, out; by go_writes.
  - destruct (JSON_StreamingJSON j).
    + destruct (json_Marshal v) as [r [o|]], rw, (JSON_Prefix j);
        by go_writes.
    + destruct (JSON_Indent j);
        [destruct (json_MarshalIndent _ _ _) as [r [o|]]
        |destruct (json_Marshal _) as [r [o|]]];
        destruct rw, (JSON_Prefix j); by go_writes.
  - destruct (JSONP_Indent j);
      [destruct (json_MarshalIndent _ _ _) as [r [o|]]
      |destruct (json_Marshal _) as [r [o|]]];
      destruct rw; by go_writes.
  - destruct (as_string v), rw; go_writes; repeat case_decide; try done;
      cbn in *; congruence.
  - destruct (XML_Indent x);
      [destruct (xml_MarshalIndent _ _ _) as [r [o|]]
      |destruct (xml_Marshal _) as [r [o|]]];
      destruct rw, (XML_Prefix x); by go_writes.
Qed.

(** X6: a render call touches no header field but the content type:
    every other key of the sink's header map holds after the call what
    it held before. *)
Theorem Render_keeps_other_headers
    (e : Engine Template) (v : any) (σ : World) (key : string) :
  key <> ContentType ->
  header (sink (snd (Render e v σ))) !! key = header (sink σ) !! key.
Proof.
  intros Hkey. rewrite Render_header.
  destruct (failure_before_write e v); [done|].
  destruct (is_ResponseWriter (sink σ)); [|done].
  unfold Header_Set. by rewrite lookup_insert_ne.
Qed.

(** X7: only [HTML.Render] uses the buffer pool: every other renderer
    leaves it as it was, and no renderer's result or effect on the sink
    depends on the state of the pool. *)
Theorem Render_pool_frame (e : Engine Template) (v : any) (σ : World) :
  (is_HTML e = false -> bufPool (snd (Render e v σ)) = bufPool σ) /\
  (forall pool,
      fst (Render e v (mkWorld (sink σ) pool)) = fst (Render e v σ) /\
      sink (snd (Render e v (mkWorld (sink σ) pool)))
        = sink (snd (Render e v σ))).
Proof.
  destruct σ as [[rw hdr cs bd fs] pool0]. cbn [sink bufPool].
  split.
  - destruct e as [d|h|j|j|t|x]; [|done|..]; intros _; go_run.
    + destruct (as_bytes v), rw; by go_writes.
    + destruct (JSON_StreamingJSON j).
      * destruct (json_Marshal v) as [r [o|]], rw, (JSON_Prefix j);
          by go_writes.
      * destruct (JSON_Indent j);
          [destruct (json_MarshalIndent _ _ _) as [r [o|]]
          |destruct (json_Marshal _) as [r [o|]]];
          destruct rw, (JSON_Prefix j); by go_writes.
    + destruct (JSONP_Indent j);
        [destruct (json_MarshalIndent _ _ _) as [r [o|]]
        |destruct (json_Marshal _) as [r [o|]]];
        destruct rw; by go_writes.
    + destruct (as_string v), rw; by go_writes.
    + destruct (XML_Indent x);
        [destruct (xml_MarshalIndent _ _ _) as [r [o|]]
        |destruct (xml_Marshal _) as [r [o|]]];
        destruct rw, (XML_Prefix x); by go_writes.
  - intros pool. destruct e as [d|h|j|j|t|x]; go_run.
    + destruct (as_bytes v), rw; by go_writes.
    + destruct (ExecuteTemplate _ _ _) as [out [o|]], rw, out; by go_writes.
    + destruct (JSON_StreamingJSON j).
      * destruct (json_Marshal v) as [r [o|]], rw, (JSON_Prefix j);
          by go_writes.
      * destruct (JSON_Indent j);
          [destruct (json_MarshalIndent _ _ _) as [r [o|]]
          |destruct (json_Marshal _) as [r [o|]]];
          destruct rw, (JSON_Prefix j); by go_writes.
    + destruct (JSONP_Indent j);
        [destruct (json_MarshalIndent _ _ _) as [r [o|]]
        |destruct (json_Marshal _) as [r [o|]]];
        destruct rw; by go_writes.
    + destruct (as_string v), rw; by go_writes.
    + destruct (XML_Indent x);
        [destruct (xml_MarshalIndent _ _ _) as [r [o|]]
        |destruct (xml_Marshal _) as [r [o|]]];
        destruct rw, (XML_Prefix x); by go_writes.
Qed.

(** ** What each renderer writes *)

(** X8: [Data.Render] handed a [[]byte] and [Text.Render] handed a
    [string] never fail: they make the header calls (on a
    header-capable sink) and one [Write] of exactly the bytes handed,
    the body gains those bytes unless the sink rejects the write, and
    [nil] is returned either way. *)
Theorem Data_Text_write_verbatim
    (d : Data) (t : Text) (b : bytes) (s : string) (σ : World) :
  let rw := is_ResponseWriter (sink σ) in
  let fs := faults (sink σ) in
  (fst (Data_Render d (AnyBytes b) σ) = Done None /\
   calls (sink (snd (Data_Render d (AnyBytes b) σ)))
     = calls (sink σ)
         ++ header_calls rw
              (written_content_type (EData d : Engine Template) (sink σ))
              (Head_Status (Data_Head d))
         ++ [Write b] /\
   body (sink (snd (Data_Render d (AnyBytes b) σ)))
     = body (sink σ) ++ accepted fs b) /\
  (fst (Text_Render t (AnyString s) σ) = Done None /\
   calls (sink (snd (Text_Render t (AnyString s) σ)))
     = calls (sink σ)
         ++ header_calls rw
              (written_content_type (EText t : Engine Template) (sink σ))
              (Head_Status (Text_Head t))
         ++ [Write (B s)] /\
   body (sink (snd (Text_Render t (AnyString s) σ)))
     = body (sink σ) ++ accepted fs (B s)).
Proof.
  destruct σ as [[rw hdr cs bd fs] pool]. cbv zeta.
  unfold written_content_type, accepted, header_calls. cbn [reads_content_type].
  split; go_run; destruct rw; go_writes;
    repeat case_decide; cbn in *; try congruence;
    (split; [done|split; [done|]]);
    destruct (answer fs 0); by rewrite ?app_nil_r.
Qed.

(** X9: once serialization has succeeded, buffered [JSON] and [XML]
    return [nil] and make, in this order, the header calls (on a
    header-capable sink), a [Write] of the prefix if and only if the
    prefix is not empty, and one [Write] of the payload; against a sink
    that accepts the writes the body [XML] adds is the prefix followed
    at once by the payload. *)
Theorem buffered_JSON_XML_writes
    (j : JSON) (x : XML) (v : any) (σ : World) (r : bytes) :
  let rw := is_ResponseWriter (sink σ) in
  (JSON_StreamingJSON j = false ->
   JSON_marshal (JSON_Indent j) v = (r, None) ->
   let serialized := if JSON_Indent j then r ++ [newline] else r in
   let payload :=
     if JSON_UnEscapeHTML j then unescapeHTML serialized else serialized in
   fst (JSON_Render j v σ) = Done None /\
   calls (sink (snd (JSON_Render j v σ)))
     = calls (sink σ)
         ++ header_calls rw (Head_ContentType (JSON_Head j))
                            (Head_Status (JSON_Head j))
         ++ prefix_write (JSON_Prefix j) ++ [Write payload]) /\
  (XML_marshal (XML_Indent x) v = (r, None) ->
   let payload := if XML_Indent x then r ++ [newline] else r in
   fst (XML_Render x v σ) = Done None /\
   calls (sink (snd (XML_Render x v σ)))
     = calls (sink σ)
         ++ header_calls rw (Head_ContentType (XML_Head x))
                            (Head_Status (XML_Head x))
         ++ prefix_write (XML_Prefix x) ++ [Write payload] /\
   (faults (sink σ) = [] ->
    body (sink (snd (XML_Render x v σ)))
      = body (sink σ) ++ XML_Prefix x ++ payload)).
Proof.
  destruct σ as [[rw hdr cs bd fs] pool]. cbv zeta.
  unfold header_calls, prefix_write. cbn [sink is_ResponseWriter faults body].
  split.
  - intros Hs Hm. go_run. rewrite Hs.
    destruct (JSON_Indent j); rewrite Hm;
      destruct (JSON_UnEscapeHTML j), rw, (JSON_Prefix j); by go_writes.
  - intros Hm. go_run.
    destruct (XML_Indent x); rewrite Hm;
      destruct rw, (XML_Prefix x); go_writes;
      (split; [done|split; [done|]]); intros ->; cbn;
      by rewrite <- ?app_assoc.
Qed.

(** X10: in streaming mode, once the value can be marshalled, [JSON]
    makes the header calls, the guarded prefix write and one [Write] of
    the serialization followed by a newline, whatever [Indent] and
    [UnEscapeHTML] say; against a sink that accepts the writes it
    returns [nil] and the body gains the prefix, the serialization and
    that one newline. *)
Theorem streaming_JSON_writes (j : JSON) (v : any) (σ : World) (b : bytes) :
  JSON_StreamingJSON j = true ->
  json_Marshal v = (b, None) ->
  calls (sink (snd (JSON_Render j v σ)))
    = calls (sink σ)
        ++ header_calls (is_ResponseWriter (sink σ))
             (Head_ContentType (JSON_Head j)) (Head_Status (JSON_Head j))
        ++ prefix_write (JSON_Prefix j) ++ [Write (b ++ [newline])] /\
  (faults (sink σ) = [] ->
   fst (JSON_Render j v σ) = Done None /\
   body (sink (snd (JSON_Render j v σ)))
     = body (sink σ) ++ JSON_Prefix j ++ b ++ [newline]).
Proof.
  destruct σ as [[rw hdr cs bd fs] pool].
  unfold header_calls, prefix_write. cbn [sink is_ResponseWriter faults body].
  intros Hs Hm. go_run. rewrite Hs, Hm.
  destruct rw, (JSON_Prefix j); go_writes; (split; [done|]); intros ->; cbn;
    by rewrite <- ?app_assoc.
Qed.

(** X11: in streaming mode a value that cannot be marshalled is
    reported only after the sink has been touched: the marshalling error
    is returned, and by then the header calls and the guarded prefix
    write have been made, so the header carries the configured content
    type and the body has gained the prefix (if the sink took it). *)
Theorem streaming_JSON_failure_after_header
    (j : JSON) (v : any) (σ : World) (b : bytes) (e : error) :
  JSON_StreamingJSON j = true ->
  json_Marshal v = (b, Some e) ->
  fst (JSON_Render j v σ) = Done (Some e) /\
  calls (sink (snd (JSON_Render j v σ)))
    = calls (sink σ)
        ++ header_calls (is_ResponseWriter (sink σ))
             (Head_ContentType (JSON_Head j)) (Head_Status (JSON_Head j))
        ++ prefix_write (JSON_Prefix j) /\
  body (sink (snd (JSON_Render j v σ)))
    = body (sink σ) ++ accepted (faults (sink σ)) (JSON_Prefix j) /\
  (is_ResponseWriter (sink σ) = true ->
   Header_Get (header (sink (snd (JSON_Render j v σ)))) ContentType
     = Head_ContentType (JSON_Head j)).
Proof.
  destruct σ as [[rw hdr cs bd fs] pool].
  unfold header_calls, prefix_write, accepted.
  cbn [sink is_ResponseWriter faults body].
  intros Hs Hm. go_run. rewrite Hs, Hm.
  destruct rw, (JSON_Prefix j); go_writes;
    rewrite ?app_nil_r;
    (split; [done|split; [done|split]]); try done;
    try (by destruct (answer fs 0); rewrite ?app_nil_r);
    intros _; unfold Header_Get; by rewrite lookup_insert_eq.
Qed.


(** X13: when the template executes, [HTML.Render] returns [nil] after
    the header calls (on a header-capable sink) and one [Write] of the
    whole expansion; an empty expansion is not written at all, so that
    no answer of the sink is used up. *)
Theorem HTML_Render_success
    (h : HTML Template) (v : any) (σ : World) (out : bytes) :
  ExecuteTemplate (HTML_Templates h) (HTML_Name h) v = (out, None) ->
  let s' := sink (snd (HTML_Render h v σ)) in
  fst (HTML_Render h v σ) = Done None /\
  calls s'
    = calls (sink σ)
        ++ header_calls (is_ResponseWriter (sink σ))
             (Head_ContentType (HTML_Head h)) (Head_Status (HTML_Head h))
        ++ (if decide (out = []) then [] else [Write out]) /\
  body s' = body (sink σ) ++ accepted (faults (sink σ)) out /\
  faults s'
    = if decide (out = []) then faults (sink σ) else tail (faults (sink σ)).
Proof.
  destruct σ as [[rw hdr cs bd fs] pool].
  unfold header_calls, accepted.
  cbn [sink is_ResponseWriter faults body].
  intros Hm. cbv zeta. go_run. rewrite Hm.
  destruct rw, out; go_writes; rewrite ?app_nil_r;
    (split; [done|split; [done|split]]); try done;
    by destruct (answer fs 0); rewrite ?app_nil_r.
Qed.

(** X14: [HTML.Render] takes one buffer from the pool on every call and
    puts it back only when the template executed: the number of buffers
    lent stays the same across a successful call and grows by one
    across every failed call; a successful call that found an idle
    buffer leaves the pool exactly as it was. *)
Theorem HTML_Render_lent_buffers (h : HTML Template) (v : any) (σ : World) :
  let p' := bufPool (snd (HTML_Render h v σ)) in
  lent p' =
    match snd (ExecuteTemplate (HTML_Templates h) (HTML_Name h) v) with
    | Some _ => S (lent (bufPool σ))
    | None => lent (bufPool σ)
    end /\
  (snd (ExecuteTemplate (HTML_Templates h) (HTML_Name h) v) = None ->
   (0 < idle (bufPool σ))%nat -> p' = bufPool σ).
Proof.
  cbv zeta. rewrite HTML_Render_pool.
  destruct (snd (ExecuteTemplate _ _ _)); [done|].
  split; [done|]. intros _ Hidle.
  destruct (bufPool σ) as [[|n] m]; [cbn in Hidle; lia|done].
Qed.

(** ** One render call after another *)

(** X15: on a header-capable sink, a [Data.Render] or [Text.Render]
    that follows another render call keeps the content type that call
    wrote: the later call reads it from the sink and writes it back,
    whatever its own configuration says. *)
Theorem Data_Text_after_Render_keep_content_type
    (e : Engine Template) (d : Data) (t : Text) (v v' : any) (σ : World) :
  is_ResponseWriter (sink σ) = true ->
  failure_before_write e v = None ->
  written_content_type e (sink σ) <> "" ->
  let σ1 := snd (Render e v σ) in
  Header_Get (header (sink σ1)) ContentType
    = written_content_type e (sink σ) /\
  Header_Get (header (sink (snd (Data_Render d v' σ1)))) ContentType
    = written_content_type e (sink σ) /\
  Header_Get (header (sink (snd (Text_Render t v' σ1)))) ContentType
    = written_content_type e (sink σ).
Proof.
  intros Hrw Herr Hne. cbv zeta.
  set (w := written_content_type e (sink σ)) in *.
  set (σ1 := snd (Render e v σ)).
  assert (is_ResponseWriter (sink σ1) = true) as Hrw1.
  { destruct (append_only_Render e v σ) as [H _]. fold σ1 in H. congruence. }
  assert (Header_Get (header (sink σ1)) ContentType = w) as Hw.
  { subst σ1. rewrite Render_header, Herr, Hrw.
    unfold Header_Get, Header_Set. by rewrite lookup_insert_eq. }
  split; [done|].
  pose proof (Render_header (EData d) v' σ1) as HD.
  pose proof (Render_header (EText t) v' σ1) as HT.
  cbn [buffered_error] in HD, HT. rewrite Hrw1 in HD, HT.
  unfold written_content_type in HD, HT. cbn [reads_content_type] in HD, HT.
  rewrite Hw in HD, HT. destruct (decide (w = "")); [done|].
  change (header (sink (snd (Data_Render d v' σ1))) =
          Header_Set ContentType w (header (sink σ1))) in HD.
  change (header (sink (snd (Text_Render t v' σ1))) =
          Header_Set ContentType w (header (sink σ1))) in HT.
  rewrite HD, HT. unfold Header_Get, Header_Set.
  by rewrite lookup_insert_eq.
Qed.

(** X16: once serialization has succeeded, [JSONP.Render] returns [nil]
    and makes, after the header calls, three [Write] calls, for the
    callback name with the opening parenthesis, for the serialization
    and for the closing [);], and a fourth for the newline exactly when
    [Indent] is set; none of them is skipped when an earlier one is
    rejected by the sink. *)
Theorem JSONP_writes (j : JSONP) (v : any) (σ : World) (js : bytes) :
  JSON_marshal (JSONP_Indent j) v = (js, None) ->
  fst (JSONP_Render json_Marshal json_MarshalIndent j v σ) = Done None /\
  calls (sink (snd (JSONP_Render json_Marshal json_MarshalIndent j v σ)))
    = calls (sink σ)
        ++ header_calls (is_ResponseWriter (sink σ))
             (Head_ContentType (JSONP_Head j)) (Head_Status (JSONP_Head j))
        ++ [Write (B (JSONP_Callback j) ++ B "("); Write js; Write (B ");")]
        ++ (if JSONP_Indent j then [Write [newline]] else []).
Proof.
  destruct σ as [[rw hdr cs bd fs] pool]. unfold header_calls.
  cbn [sink is_ResponseWriter calls].
  intros Hm. go_run.
  destruct (JSONP_Indent j); rewrite Hm; destruct rw; go_writes;
    by rewrite B_app.
Qed.

Lemma Header_Get_Set key value (h : gmap string (list string)) :
  Header_Get (Header_Set key value h) key = value.
Proof. unfold Header_Get, Header_Set. by rewrite lookup_insert_eq. Qed.

(** The content type a renderer wrote is the one it would write again. *)
Lemma written_content_type_again (e : Engine Template) (s s1 : Sink) :
  header s1 = Header_Set ContentType (written_content_type e s) (header s) ->
  written_content_type e s1 = written_content_type e s.
Proof.
  intros H. unfold written_content_type in *.
  destruct (reads_content_type e); [|done].
  rewrite H, Header_Get_Set. cbv zeta.
  by repeat case_decide.
Qed.

(** X17: rendering the same value with the same renderer a second time
    leaves the header map as the first call left it. *)
Theorem Render_header_idempotent (e : Engine Template) (v : any) (σ : World) :
  header (sink (snd (Render e v (snd (Render e v σ)))))
    = header (sink (snd (Render e v σ))).
Proof.
  set (σ1 := snd (Render e v σ)).
  assert (is_ResponseWriter (sink σ1) = is_ResponseWriter (sink σ)) as Hrw1.
  { by destruct (append_only_Render e v σ) as [H _]. }
  pose proof (Render_header e v σ) as H1. fold σ1 in H1.
  rewrite (Render_header e v σ1), Hrw1.
  destruct (failure_before_write e v); [done|].
  destruct (is_ResponseWriter (sink σ)); [|done].
  rewrite (written_content_type_again e (sink σ) (sink σ1) H1), H1.
  unfold Header_Set. by rewrite insert_insert_eq.
Qed.

End RenderFrame.

(** ** The further properties on the sample collaborators *)

Section MoreSamples.

Import Sample.

Local Abbreviation JSON_Render' := (JSON_Render json_Marshal json_MarshalIndent).
Local Abbreviation JSONP_Render' := (JSONP_Render json_Marshal json_MarshalIndent).
Local Abbreviation XML_Render' := (XML_Render xml_Marshal xml_MarshalIndent).
Local Abbreviation HTML_Render' := (HTML_Render Template ExecuteTemplate).

Lemma Render_keeps_other_headers_witness :
  let s := mkSink true {[ "X-Request-Id" := ["42"] ]} [] [] [] in
  header (sink (snd (Render (EJSON json_plain) v_obj (mkWorld s pool))))
    !! "X-Request-Id" = header s !! "X-Request-Id".
Proof.
  intros s.
  apply (Render_keeps_other_headers
           json_Marshal json_MarshalIndent xml_Marshal xml_MarshalIndent
           Template ExecuteTemplate (EJSON json_plain) v_obj (mkWorld s pool)).
  unfold ContentType. discriminate.
Defined.

Lemma Render_pool_frame_witness :
  bufPool (snd (Render (EJSON json_plain) v_obj σ0)) = bufPool σ0.
Proof.
  apply (proj1 (Render_pool_frame
           json_Marshal json_MarshalIndent xml_Marshal xml_MarshalIndent
           Template ExecuteTemplate (EJSON json_plain) v_obj σ0)).
  reflexivity.
Defined.

Lemma buffered_JSON_XML_writes_witness :
  let guard := B "while(1);" in
  let j := mkJSON head_json false false guard false in
  let x := mkXML (mkHead "text/xml" 200) true [] in
  calls (sink (snd (JSON_Render' j v_obj σ0)))
    = [HeaderSet ContentType "application/json"; WriteHeader 200;
       Write guard; Write obj_compact] /\
  calls (sink (snd (XML_Render' x (AnyString "hi") σ0)))
    = [HeaderSet ContentType "text/xml"; WriteHeader 200;
       Write (B "<string>hi</string>" ++ [newline])].
Proof.
  intros guard j x. split.
  - exact (proj2 (proj1 (buffered_JSON_XML_writes
             json_Marshal json_MarshalIndent xml_Marshal xml_MarshalIndent
             j x v_obj σ0 obj_compact) eq_refl eq_refl)).
  - exact (proj1 (proj2 (proj2 (buffered_JSON_XML_writes
             json_Marshal json_MarshalIndent xml_Marshal xml_MarshalIndent
             j x (AnyString "hi") σ0 (B "<string>hi</string>")) eq_refl))).
Defined.

Lemma streaming_JSON_writes_witness :
  fst (JSON_Render' json_stream v_obj σ0) = Done None /\
  body (sink (snd (JSON_Render' json_stream v_obj σ0)))
    = obj_compact ++ [newline].
Proof.
  exact (proj2 (streaming_JSON_writes json_Marshal json_MarshalIndent
                  json_stream v_obj σ0 obj_compact eq_refl eq_refl) eq_refl).
Defined.

Lemma streaming_JSON_failure_after_header_witness :
  let r := JSON_Render' json_stream AnyChan σ0 in
  fst r = Done (Some (Err "unsupported type")) /\
  calls (sink (snd r))
    = [HeaderSet ContentType "application/json"; WriteHeader 200] /\
  Header_Get (header (sink (snd r))) ContentType = "application/json".
Proof.
  intros r.
  destruct (streaming_JSON_failure_after_header
              json_Marshal json_MarshalIndent json_stream AnyChan σ0 []
              (Err "unsupported type") eq_refl eq_refl)
    as (Hret & Hcalls & _ & Hhdr).
  split; [exact Hret|]. split; [exact Hcalls|]. exact (Hhdr eq_refl).
Defined.


Lemma HTML_Render_success_witness :
  let r := HTML_Render' html_hello (AnyMap [("Name", AnyString "Ann")]) σ0 in
  fst r = Done None /\
  calls (sink (snd r))
    = [HeaderSet ContentType "text/html"; WriteHeader 200;
       Write (B "Hello Ann!")] /\
  body (sink (snd r)) = B "Hello Ann!".
Proof.
  intros r.
  destruct (HTML_Render_success Template ExecuteTemplate html_hello
              (AnyMap [("Name", AnyString "Ann")]) σ0 (B "Hello Ann!")
              eq_refl)
    as (Hret & Hcalls & Hbody & _).
  split; [exact Hret|]. split; [exact Hcalls|exact Hbody].
Defined.

Lemma HTML_Render_lent_buffers_witness :
  bufPool (snd (HTML_Render' html_hello
                  (AnyMap [("Name", AnyString "Ann")]) σ0)) = bufPool σ0 /\
  lent (bufPool (snd (HTML_Render' html_hello (AnyInt 7) σ0))) = 1%nat.
Proof.
  split.
  - apply (proj2 (HTML_Render_lent_buffers Template ExecuteTemplate
             html_hello (AnyMap [("Name", AnyString "Ann")]) σ0));
      [reflexivity|vm_compute; lia].
  - exact (proj1 (HTML_Render_lent_buffers Template ExecuteTemplate
             html_hello (AnyInt 7) σ0)).
Defined.

Lemma Data_Text_after_Render_keep_content_type_witness :
  let d := mkData (mkHead "application/octet-stream" 200) in
  let σ1 := snd (Render (EJSON json_plain) v_obj σ0) in
  Header_Get (header (sink (snd (Data_Render d (AnyBytes (B "hi")) σ1))))
    ContentType = "application/json".
Proof.
  intros d σ1.
  assert (written_content_type (EJSON json_plain : Engine Template)
            (sink σ0) <> "") as Hne by (vm_compute; discriminate).
  exact (proj1 (proj2 (Data_Text_after_Render_keep_content_type
           json_Marshal json_MarshalIndent xml_Marshal xml_MarshalIndent
           Template ExecuteTemplate (EJSON json_plain) d
           (mkText (mkHead "text/plain" 200)) v_obj (AnyBytes (B "hi")) σ0
           eq_refl eq_refl Hne))).
Defined.

Lemma JSONP_writes_witness :
  calls (sink (snd (JSONP_Render' jsonp_cb v_obj σ0)))
    = [HeaderSet ContentType "application/json"; WriteHeader 200;
       Write (B "cb("); Write obj_compact; Write (B ");")].
Proof.
  exact (proj2 (JSONP_writes json_Marshal json_MarshalIndent
                  jsonp_cb v_obj σ0 obj_compact eq_refl)).
Defined.

End MoreSamples.
